(** * Subprocess lifecycle manager of the voice service (mcp/process_manager.py)

    A shallow embedding of the supervisor that starts, stops and inspects the
    whisper and tts uvicorn processes, together with the properties of its
    registry, its log ring buffer and its stop escalation.

    Modelling conventions.
    - Python [int] is [Z]; [float] (clock readings, uptimes) is an exact
      rational [Q]; [str] is [string]; a [dict] with string keys is a
      [gmap string _].
    - A [ManagedService] object lives in the registry [_services] for ever, so
      a reference to it is its registry key.
    - The operating system (process table, pipes, executables, clock) is part
      of the state.  What a child process will do when asked to stop is fixed
      by oracle fields of its table entry, so every function stays executable.
    - [start], [status] and [view_logs] are synchronous and run in one piece.
      [stop] and [restart] are run in one piece too, although they suspend
      while they wait for the process; the log reader task is advanced
      between calls by [task_step].  What is stated of [stop] and [restart]
      is therefore what a reader running during their waits cannot change
      (handles, tasks, calls made, the exit of the process), not what the
      reader stores meanwhile.  [services_overview] is modelled with its
      awaits. *)

From Stdlib Require Import ZArith QArith Qround.
From stdpp Require Import gmap strings list fin_maps pretty.

Local Open Scope Z_scope.

(** ** Python values and helpers *)

Inductive pyval :=
| PNone
| PBool (b : bool)
| PInt (n : Z)
| PFloat (x : Q)
| PStr (s : string)
| PList (l : list string).

(** [l[start:]] for a list [l] and an integer [start]. *)
Definition py_slice_from {A} (start : Z) (l : list A) : list A :=
  let len := Z.of_nat (length l) in
  if start <? 0 then drop (Z.to_nat (Z.max (len + start) 0)) l
  else drop (Z.to_nat (Z.min start len)) l.

(** [s.rstrip("\n")]: every trailing line feed is removed. *)
Definition LF : Ascii.ascii := Ascii.ascii_of_nat 10.

Fixpoint rstrip_nl (s : string) : string :=
  match s with
  | EmptyString => EmptyString
  | String c rest =>
      match rstrip_nl rest with
      | EmptyString => if Ascii.eqb c LF then EmptyString else String c EmptyString
      | r => String c r
      end
  end.

(** [round(x, 1)]: nearest multiple of one tenth, ties to the even one. *)
Definition round1 (x : Q) : Q :=
  let y := (x * 10)%Q in
  let f := Qfloor y in
  let r := (y - inject_Z f)%Q in
  let n := match (r ?= 1 # 2)%Q with
           | Lt => f
           | Gt => f + 1
           | Eq => if Z.even f then f else f + 1
           end in
  Qred (inject_Z n / 10)%Q.

(** ** collections.deque with a maxlen *)

(** [d.append(x)] on [deque(maxlen=maxlen)]: the item goes to the right end
    and, when the deque has grown past [maxlen], the leftmost item is
    dropped. *)
Definition deque_append {A} (maxlen : nat) (d : list A) (x : A) : list A :=
  let d' := d ++ [x] in
  if (maxlen <? length d')%nat then tail d' else d'.

(** The last [n] items of a list. *)
Definition lastn {A} (n : nat) (l : list A) : list A :=
  drop (length l - n) l.

(** ** Static configuration *)

(** Paths are lists of components below the directory the source calls
    [REPO_ROOT] (the parent of mcp/). *)
Definition Path := list string.

Definition REPO_ROOT : Path := [].

Definition path_join (p : Path) (c : string) : Path := p ++ [c].

Infix "//" := path_join (at level 40, left associativity).

(** [str(path)] on Windows. *)
Definition path_str (p : Path) : string := String.concat "\" p.

Record ServiceCfg := {
  cfg_cwd : Path;
  cfg_uvicorn : Path;
  cfg_app : string;
  cfg_port : Z;
}.

Definition SERVICE_CONFIG : gmap string ServiceCfg :=
  {[ "whisper" :=
       {| cfg_cwd := REPO_ROOT // "whisper";
          cfg_uvicorn := REPO_ROOT // "whisper" // "venv" // "Scripts" // "uvicorn.exe";
          cfg_app := "server:app";
          cfg_port := 8100 |};
     "tts" :=
       {| cfg_cwd := REPO_ROOT // "tts";
          cfg_uvicorn := REPO_ROOT // "tts" // "venv" // "Scripts" // "uvicorn.exe";
          cfg_app := "server:app";
          cfg_port := 8200 |} ]}.

Definition LOG_BUFFER_SIZE : Z := 500.

(** ** The managed-service record *)

(** A [subprocess.Popen] object; its pipe and exit status are looked up in
    the process table under [pid]. *)
Record Popen := { pid : Z }.

Record ManagedService := {
  name : string;
  process : option Popen;
  logs : list string;          (* deque(maxlen=LOG_BUFFER_SIZE) *)
  started_at : option Q;
  _reader_task : option nat;   (* index of the asyncio task *)
}.

(** [ManagedService.__init__]. *)
Definition ManagedService_init (name : string) : ManagedService :=
  {| name := name; process := None; logs := [];
     started_at := None; _reader_task := None |}.

(** ** The operating system and the event loop *)

Inductive signal := CTRL_BREAK_EVENT.

(** What a program does once it runs; [prog_shutdown] and
    [prog_break_raises] are the oracle for the stop sequence. *)
Record Program := {
  prog_launchable : bool;        (* false: the file exists but cannot be run *)
  prog_break_raises : bool;      (* delivering the console event fails *)
  prog_shutdown : option Q;      (* seconds until it exits once waited for;
                                    None: it never exits by itself *)
  prog_exit_status : Z;
}.

Record OsProcess := {
  p_cmd : list string;
  p_cwd : string;
  p_program : Program;
  p_returncode : option Z;       (* None while the process is alive *)
  p_stdout : list string;        (* lines written to the pipe, not yet read *)
}.

(** Calls made on processes, in program order. *)
Inductive os_call :=
| CallSpawn (pid : Z) (cmd : list string) (cwd : string)
| CallSendSignal (pid : Z) (sig : signal)
| CallWaitFor (pid : Z) (timeout : Q)
| CallKill (pid : Z)
| CallWait (pid : Z).

(** Where a log reader coroutine stands. *)
Inductive task_pc :=
| NotStarted
| Reading (proc : Popen)
| Finished
| Cancelled.

Record Task := {
  t_svc : string;                (* the record passed to _log_reader *)
  t_pc : task_pc;
  t_must_cancel : bool;          (* cancel() was called *)
}.

Record State := {
  _services : gmap string ManagedService;
  tasks : list Task;
  procs : gmap Z OsProcess;
  next_pid : Z;
  fs : gmap string Program;      (* executables, by path string *)
  now : Q;                       (* time.time() *)
  trace : list os_call;
}.

Definition with_services (f : gmap string ManagedService → gmap string ManagedService)
    (s : State) : State :=
  {| _services := f (_services s); tasks := tasks s; procs := procs s;
     next_pid := next_pid s; fs := fs s; now := now s; trace := trace s |}.

Definition with_tasks (f : list Task → list Task) (s : State) : State :=
  {| _services := _services s; tasks := f (tasks s); procs := procs s;
     next_pid := next_pid s; fs := fs s; now := now s; trace := trace s |}.

Definition with_procs (f : gmap Z OsProcess → gmap Z OsProcess) (s : State) : State :=
  {| _services := _services s; tasks := tasks s; procs := f (procs s);
     next_pid := next_pid s; fs := fs s; now := now s; trace := trace s |}.

Definition with_next_pid (n : Z) (s : State) : State :=
  {| _services := _services s; tasks := tasks s; procs := procs s;
     next_pid := n; fs := fs s; now := now s; trace := trace s |}.

Definition with_now (t : Q) (s : State) : State :=
  {| _services := _services s; tasks := tasks s; procs := procs s;
     next_pid := next_pid s; fs := fs s; now := t; trace := trace s |}.

Definition log_call (c : os_call) (s : State) : State :=
  {| _services := _services s; tasks := tasks s; procs := procs s;
     next_pid := next_pid s; fs := fs s; now := now s; trace := trace s ++ [c] |}.

(** ** Computations: state, exceptions, and calls that never return *)

Inductive exn :=
| ValueError (unknown : string)  (* "Unknown service: ..." *)
| KeyError (key : string)
| OSError
| FileNotFoundError
| TimeoutError.

(** [except OSError]: FileNotFoundError is a subclass of OSError. *)
Definition is_OSError (e : exn) : bool :=
  match e with OSError | FileNotFoundError => true | _ => false end.

Definition is_TimeoutError (e : exn) : bool :=
  match e with TimeoutError => true | _ => false end.

Inductive outcome (A : Type) :=
| Return (a : A)
| Raise (e : exn)
| Hang.                          (* the call blocks for ever *)
Arguments Return {A} a.
Arguments Raise {A} e.
Arguments Hang {A}.

Definition M (A : Type) : Type := State → outcome A * State.

#[global] Instance M_ret : MRet M := λ A a s, (Return a, s).

#[global] Instance M_bind : MBind M := λ A B f m s,
  match m s with
  | (Return a, s') => f a s'
  | (Raise e, s') => (Raise e, s')
  | (Hang, s') => (Hang, s')
  end.

Definition raise {A} (e : exn) : M A := λ s, (Raise e, s).

(** [try: m  except <handles>: handler]. *)
Definition try_except {A} (m : M A) (handles : exn → bool) (handler : M A) : M A :=
  λ s, match m s with
       | (Raise e, s') => if handles e then handler s' else (Raise e, s')
       | r => r
       end.

Definition gets {A} (f : State → A) : M A := λ s, (Return (f s), s).

Definition modify (f : State → State) : M unit := λ s, (Return tt, f s).

(** ** Process primitives (subprocess.Popen on Windows) *)

(** Exit status the operating system reports for [pid]; [None] while the
    process is alive.  A pid that was never spawned counts as gone. *)
Definition os_returncode (s : State) (pid : Z) : option Z :=
  match procs s !! pid with
  | Some p => p_returncode p
  | None => Some 0
  end.

Definition set_returncode (code : Z) (p : OsProcess) : OsProcess :=
  {| p_cmd := p_cmd p; p_cwd := p_cwd p; p_program := p_program p;
     p_returncode := Some code; p_stdout := p_stdout p |}.

Definition set_stdout (out : list string) (p : OsProcess) : OsProcess :=
  {| p_cmd := p_cmd p; p_cwd := p_cwd p; p_program := p_program p;
     p_returncode := p_returncode p; p_stdout := out |}.

(** The process leaves by itself: it exits [d] seconds from now. *)
Definition os_exit_after (pid : Z) (d : Q) (s : State) : State :=
  with_now (Qred (now s + d))
    (with_procs (alter (λ p, set_returncode (prog_exit_status (p_program p)) p) pid) s).

(** [proc.poll()]. *)
Definition poll (proc : Popen) : M (option Z) :=
  gets (λ s, os_returncode s (pid proc)).

(** [subprocess.Popen(cmd, cwd=cwd, stdout=PIPE, stderr=STDOUT,
    creationflags=CREATE_NEW_PROCESS_GROUP)]. *)
Definition Popen_new (cmd : list string) (cwd : string) : M Popen := λ s,
  match fs s !! default "" (head cmd) with
  | None => (Raise FileNotFoundError, s)
  | Some prog =>
      if prog_launchable prog then
        let p := next_pid s in
        let entry := {| p_cmd := cmd; p_cwd := cwd; p_program := prog;
                        p_returncode := None; p_stdout := [] |} in
        (Return {| pid := p |},
         log_call (CallSpawn p cmd cwd)
           (with_next_pid (p + 1) (with_procs (insert p entry) s)))
      else (Raise OSError, s)
  end.

(** [proc.send_signal(sig)]: nothing is sent to a process that has exited. *)
Definition send_signal (proc : Popen) (sig : signal) : M unit := λ s,
  let s' := log_call (CallSendSignal (pid proc) sig) s in
  match procs s !! pid proc with
  | Some p =>
      match p_returncode p with
      | Some _ => (Return tt, s')
      | None => if prog_break_raises (p_program p) then (Raise OSError, s')
                else (Return tt, s')
      end
  | None => (Return tt, s')
  end.

(** [await asyncio.wait_for(loop.run_in_executor(None, proc.wait), timeout)]. *)
Definition wait_for_wait (proc : Popen) (timeout : Q) : M Z := λ s,
  let s' := log_call (CallWaitFor (pid proc) timeout) s in
  match procs s !! pid proc with
  | Some p =>
      match p_returncode p with
      | Some code => (Return code, s')
      | None =>
          match prog_shutdown (p_program p) with
          | Some d =>
              if negb (Qle_bool timeout d)
              then (Return (prog_exit_status (p_program p)), os_exit_after (pid proc) d s')
              else (Raise TimeoutError, with_now (Qred (now s + timeout)) s')
          | None => (Raise TimeoutError, with_now (Qred (now s + timeout)) s')
          end
      end
  | None => (Return 0, s')
  end.

(** [proc.kill()]: TerminateProcess, the exit status becomes 1. *)
Definition kill (proc : Popen) : M unit := λ s,
  let s' := log_call (CallKill (pid proc)) s in
  match os_returncode s (pid proc) with
  | Some _ => (Return tt, s')
  | None => (Return tt, with_procs (alter (set_returncode 1) (pid proc)) s')
  end.

(** [await loop.run_in_executor(None, proc.wait)]: no deadline. *)
Definition wait (proc : Popen) : M Z := λ s,
  let s' := log_call (CallWait (pid proc)) s in
  match procs s !! pid proc with
  | Some p =>
      match p_returncode p with
      | Some code => (Return code, s')
      | None =>
          match prog_shutdown (p_program p) with
          | Some d => (Return (prog_exit_status (p_program p)), os_exit_after (pid proc) d s')
          | None => (Hang, s')
          end
      end
  | None => (Return 0, s')
  end.

(** [time.time()]. *)
Definition time_time : M Q := gets now.

(** ** Event-loop tasks *)

Definition task_is_done (t : Task) : bool :=
  match t_pc t with Finished | Cancelled => true | _ => false end.

Definition set_pc (pc : task_pc) (t : Task) : Task :=
  {| t_svc := t_svc t; t_pc := pc; t_must_cancel := t_must_cancel t |}.

(** [task.cancel()]: a finished task is left alone, a live one is marked and
    is thrown CancelledError when it next runs. *)
Definition request_cancel (t : Task) : Task :=
  if task_is_done t then t
  else {| t_svc := t_svc t; t_pc := t_pc t; t_must_cancel := true |}.

(** [loop.create_task(_log_reader(svc))]. *)
Definition create_task (svc : string) : M nat := λ s,
  (Return (length (tasks s)),
   with_tasks (λ ts, ts ++ [{| t_svc := svc; t_pc := NotStarted;
                               t_must_cancel := false |}]) s).

(** [task.done()]. *)
Definition done (t : nat) : M bool :=
  gets (λ s, from_option task_is_done true (tasks s !! t)).

(** [task.cancel()]. *)
Definition cancel (t : nat) : M unit :=
  modify (with_tasks (alter request_cancel t)).

(** ** ManagedService: field access through the registry *)

Definition svc_of (svc : string) : M ManagedService := λ s,
  match _services s !! svc with
  | Some r => (Return r, s)
  | None => (Raise (KeyError svc), s)
  end.

Definition set_logs (l : list string) (r : ManagedService) : ManagedService :=
  {| name := name r; process := process r; logs := l;
     started_at := started_at r; _reader_task := _reader_task r |}.

Definition set_process (p : option Popen) (r : ManagedService) : ManagedService :=
  {| name := name r; process := p; logs := logs r;
     started_at := started_at r; _reader_task := _reader_task r |}.

Definition set_started_at (t : option Q) (r : ManagedService) : ManagedService :=
  {| name := name r; process := process r; logs := logs r;
     started_at := t; _reader_task := _reader_task r |}.

Definition set_reader_task (t : option nat) (r : ManagedService) : ManagedService :=
  {| name := name r; process := process r; logs := logs r;
     started_at := started_at r; _reader_task := t |}.

(** [svc.<field> = ...]. *)
Definition update_svc (svc : string) (f : ManagedService → ManagedService) : M unit :=
  modify (with_services (alter f svc)).

(** Property [ManagedService.running]. *)
Definition ManagedService_running (svc : string) : M bool :=
  r ← svc_of svc;
  match process r with
  | None => mret false
  | Some proc => rc ← poll proc; mret (bool_decide (rc = None))
  end.

(** Property [ManagedService.pid]. *)
Definition ManagedService_pid (svc : string) : M (option Z) :=
  r ← svc_of svc;
  mret (pid <$> process r).

(** Truth value of a float. *)
Definition float_truthy (x : Q) : bool := negb (Qeq_bool x 0).

(** Property [ManagedService.uptime_seconds]. *)
Definition ManagedService_uptime_seconds (svc : string) : M (option Q) :=
  r ← svc_of svc;
  match started_at r with
  | Some t0 =>
      if float_truthy t0 then
        up ← ManagedService_running svc;
        if up : bool then t ← time_time; mret (Some (round1 (t - t0)%Q))
        else mret None
      else mret None
  | None => mret None
  end.

Definition py_opt {A} (inj : A → pyval) (o : option A) : pyval :=
  from_option inj PNone o.

(** [SERVICE_CONFIG[key]]. *)
Definition config (key : string) : M ServiceCfg :=
  match SERVICE_CONFIG !! key with
  | Some cfg => mret cfg
  | None => raise (KeyError key)
  end.

(** [ManagedService.status_dict]. *)
Definition ManagedService_status_dict (svc : string) : M (gmap string pyval) :=
  r ← svc_of svc;
  cfg ← config (name r);
  up ← ManagedService_running svc;
  p ← ManagedService_pid svc;
  u ← ManagedService_uptime_seconds svc;
  mret (<["service" := PStr (name r)]>
        (<["running" := PBool up]>
        (<["pid" := py_opt PInt p]>
        (<["port" := PInt (cfg_port cfg)]>
        (<["uptime_seconds" := py_opt PFloat u]> ∅))))).

(** ** The registry *)

Definition _get (name : string) : M string := λ s,
  match SERVICE_CONFIG !! name with
  | None => (Raise (ValueError name), s)
  | Some _ =>
      match _services s !! name with
      | None => (Return name,
                 with_services (insert name (ManagedService_init name)) s)
      | Some _ => (Return name, s)
      end
  end.

(** ** The log reader *)

(** One turn of the [while True] loop of [_log_reader] once [readline] has
    returned [line]: [None] is the [break]. *)
Definition log_reader_turn (line : string) (logs : list string) : option (list string) :=
  if decide (line = "") then None
  else Some (deque_append (Z.to_nat LOG_BUFFER_SIZE) logs (rstrip_nl line)).

(** [_log_reader] run to the end on a stream that delivers the lines of
    [stream] and then end of file; the result is the ring buffer. *)
Fixpoint _log_reader (stream : list string) (logs : list string) : list string :=
  match stream with
  | [] => logs
  | line :: rest =>
      match log_reader_turn line logs with
      | None => logs
      | Some logs' => _log_reader rest logs'
      end
  end.

(** One scheduling of task [t] by the event loop.  A reader blocked on an
    empty pipe of a live process does not move. *)
Definition task_step (t : nat) (s : State) : State :=
  match tasks s !! t with
  | None => s
  | Some task =>
      let goto pc := with_tasks (alter (set_pc pc) t) s in
      match t_pc task with
      | Finished | Cancelled => s
      | NotStarted =>
          if t_must_cancel task then goto Cancelled
          else match _services s !! t_svc task ≫= process with
               | None => goto Finished
               | Some proc => goto (Reading proc)
               end
      | Reading proc =>
          if t_must_cancel task then goto Cancelled
          else match procs s !! pid proc with
               | None => goto Finished
               | Some p =>
                   match p_stdout p with
                   | [] => match p_returncode p with
                           | Some _ => goto Finished
                           | None => s
                           end
                   | line :: rest =>
                       match log_reader_turn line (from_option logs [] (_services s !! t_svc task)) with
                       | None => with_procs (alter (set_stdout rest) (pid proc)) (goto Finished)
                       | Some logs' =>
                           with_procs (alter (set_stdout rest) (pid proc))
                             (with_services (alter (set_logs logs') (t_svc task)) s)
                       end
                   end
               end
      end
  end.

(** ** The lifecycle operations *)

Definition start (name : string) : M (gmap string pyval) :=
  svc ← _get name;
  up ← ManagedService_running svc;
  if up : bool then
    d ← ManagedService_status_dict svc;
    mret (<["message" := PStr "Already running"]> d)
  else
    cfg ← config name;
    let uvicorn := path_str (cfg_uvicorn cfg) in
    let cmd := [uvicorn; cfg_app cfg; "--host"; "0.0.0.0"; "--port"; pretty (cfg_port cfg)] in
    update_svc svc (set_logs []);;
    proc ← Popen_new cmd (path_str (cfg_cwd cfg));
    update_svc svc (set_process (Some proc));;
    t ← time_time;
    update_svc svc (set_started_at (Some t));;
    task ← create_task svc;
    update_svc svc (set_reader_task (Some task));;
    d ← ManagedService_status_dict svc;
    mret (<["message" := PStr "Started"]> d).

Definition stop (name : string) : M (gmap string pyval) :=
  svc ← _get name;
  up ← ManagedService_running svc;
  if negb up then
    d ← ManagedService_status_dict svc;
    mret (<["message" := PStr "Not running"]> d)
  else
    r ← svc_of svc;
    match process r with
    | None => raise (KeyError "process")
    | Some proc =>
        try_except (send_signal proc CTRL_BREAK_EVENT) is_OSError (mret tt);;
        try_except (wait_for_wait proc 10;; mret tt) is_TimeoutError
          (kill proc;; wait proc;; mret tt);;
        r ← svc_of svc;
        match _reader_task r with
        | Some task =>
            finished ← done task;
            if negb finished then cancel task else mret tt
        | None => mret tt
        end;;
        d ← ManagedService_status_dict svc;
        mret (<["message" := PStr "Stopped"]> d)
    end.

Definition restart (name : string) : M (gmap string pyval) :=
  stop name;;
  start name.

Definition status (name : string) : M (gmap string pyval) :=
  svc ← _get name;
  ManagedService_status_dict svc.

Definition view_logs (name : string) (lines : Z) : M (gmap string pyval) :=
  svc ← _get name;
  let lines := Z.max 1 (Z.min lines LOG_BUFFER_SIZE) in
  r ← svc_of svc;
  let recent := py_slice_from (- lines) (logs r) in
  mret (<["service" := PStr name]>
        (<["lines_requested" := PInt lines]>
        (<["lines_returned" := PInt (Z.of_nat (length recent))]>
        (<["logs" := PList recent]> ∅)))).

(** ** What the environment does between two calls *)

(** The child writes one line to its output pipe. *)
Definition os_write (pid : Z) (line : string) (s : State) : State :=
  with_procs (alter (λ p, set_stdout (p_stdout p ++ [line]) p) pid) s.

(** The child exits by itself. *)
Definition os_exit (pid : Z) (s : State) : State :=
  with_procs (alter (λ p, match p_returncode p with
                          | Some _ => p
                          | None => set_returncode (prog_exit_status (p_program p)) p
                          end) pid) s.

(** Time passes. *)
Definition os_tick (d : Q) (s : State) : State :=
  with_now (Qred (now s + d)) s.

Inductive step : State → State → Prop :=
| step_start name s o s' : start name s = (o, s') → step s s'
| step_stop name s o s' : stop name s = (o, s') → step s s'
| step_restart name s o s' : restart name s = (o, s') → step s s'
| step_status name s o s' : status name s = (o, s') → step s s'
| step_view_logs name n s o s' : view_logs name n s = (o, s') → step s s'
| step_task t s : step s (task_step t s)
| step_write pid line s : line ≠ "" → step s (os_write pid line s)
| step_exit pid s : step s (os_exit pid s)
| step_tick d s : step s (os_tick d s).

(** The supervisor at import time: empty registry, no task, no child. *)
Definition boot (files : gmap string Program) (first_pid : Z) (clock : Q) : State :=
  {| _services := ∅; tasks := []; procs := ∅; next_pid := first_pid;
     fs := files; now := clock; trace := [] |}.

Inductive reachable : State → Prop :=
| reachable_boot files first_pid clock : reachable (boot files first_pid clock)
| reachable_step s s' : reachable s → step s s' → reachable s'.

(** Pure readings of a state. *)
Definition is_running (s : State) (name : string) : bool :=
  match ManagedService_running name s with
  | (Return b, _) => b
  | _ => false
  end.

(** A machine on which both uvicorn executables exist; [prog] is what they
    do. *)
Definition installed (prog : Program) : gmap string Program :=
  {[ "whisper\venv\Scripts\uvicorn.exe" := prog;
     "tts\venv\Scripts\uvicorn.exe" := prog ]}.

Definition well_behaved : Program :=
  {| prog_launchable := true; prog_break_raises := false;
     prog_shutdown := Some (2 # 1)%Q; prog_exit_status := 0 |}.

Definition stubborn : Program :=
  {| prog_launchable := true; prog_break_raises := true;
     prog_shutdown := None; prog_exit_status := 0 |}.

Definition run {A} (m : M A) (s : State) : State := snd (m s).

(** ** Readings of a state, reasoning predicates and sample machines *)

(** What [running], [uptime_seconds] and [status_dict] compute for record
    [r] in state [s]. *)
Definition alive (s : State) (r : ManagedService) : bool :=
  match process r with
  | None => false
  | Some p => bool_decide (os_returncode s (pid p) = None)
  end.

Definition uptime (s : State) (r : ManagedService) : option Q :=
  match started_at r with
  | Some t0 =>
      if float_truthy t0 then
        if alive s r then Some (round1 (now s - t0)%Q) else None
      else None
  | None => None
  end.

Definition snapshot (s : State) (r : ManagedService) (port : Z) : gmap string pyval :=
  <["service" := PStr (name r)]>
  (<["running" := PBool (alive s r)]>
  (<["pid" := py_opt PInt (pid <$> process r)]>
  (<["port" := PInt port]>
  (<["uptime_seconds" := py_opt PFloat (uptime s r)]> ∅)))).

(** The registry after [_get] of a configured name. *)
Definition ensure (k : string) (s : State) : State :=
  match _services s !! k with
  | None => with_services (insert k (ManagedService_init k)) s
  | Some _ => s
  end.

(** [m] keeps [P], however it ends. *)
Definition preserves {A} (P : State → Prop) (m : M A) : Prop :=
  ∀ s o s', P s → m s = (o, s') → P s'.

(** Whatever [m] returns satisfies [Q]. *)
Definition returns {A} (Q : A → Prop) (m : M A) : Prop :=
  ∀ s a s', m s = (Return a, s') → Q a.

(** Record [r], stored under key [k], is well formed in state [s]: it has the
    key as its name, the name is configured, the ring buffer respects its
    capacity, and the task it holds was created for it and, once it reads,
    reads from the record's process handle. *)
Record record_ok (s : State) (k : string) (r : ManagedService) : Prop := {
  ok_name : name r = k;
  ok_known : is_Some (SERVICE_CONFIG !! k);
  ok_logs : (length (logs r) ≤ Z.to_nat LOG_BUFFER_SIZE)%nat;
  ok_task : ∀ t, _reader_task r = Some t →
            ∃ task, tasks s !! t = Some task ∧ t_svc task = k ∧
                    ∀ p, t_pc task = Reading p → process r = Some p;
}.

Definition Inv (s : State) : Prop :=
  ∀ k r, _services s !! k = Some r → record_ok s k r.

Definition readonly {A} (m : M A) : Prop := ∀ s o s', m s = (o, s') → s' = s.

(** [m] leaves the registry and the tasks alone. *)
Definition os_only {A} (m : M A) : Prop :=
  ∀ s o s', m s = (o, s') → _services s' = _services s ∧ tasks s' = tasks s.

Definition launch_cmd (cfg : ServiceCfg) : list string :=
  [path_str (cfg_uvicorn cfg); cfg_app cfg; "--host"; "0.0.0.0"; "--port";
   pretty (cfg_port cfg)].

(** The state in which [start] calls [Popen]: record present, buffer empty. *)
Definition cleared (k : string) (s : State) : State :=
  with_services (alter (set_logs []) k) (ensure k s).

(** The state [start] leaves once [Popen] has returned [proc] in state [s]. *)
Definition spawned (k : string) (proc : Popen) (s : State) : State :=
  with_services (alter (set_reader_task (Some (length (tasks s)))) k)
    (with_tasks (λ ts, ts ++ [{| t_svc := k; t_pc := NotStarted; t_must_cancel := false |}])
       (with_services (alter (set_started_at (Some (now s))) k)
          (with_services (alter (set_process (Some proc)) k) s))).

Definition fresh_run (r : ManagedService) (proc : Popen) (s : State) : ManagedService :=
  {| name := name r; process := Some proc; logs := [];
     started_at := Some (now s); _reader_task := Some (length (tasks s)) |}.

(** The child exits by itself less than [timeout] seconds after the wait
    begins. *)
Definition exits_within (timeout : Q) (e : OsProcess) : bool :=
  match prog_shutdown (p_program e) with
  | Some d => negb (Qle_bool timeout d)
  | None => false
  end.

(** State after the signal and the two waits of [stop] on handle [p], whose
    table entry is [e]. *)
Definition quiesced (p : Popen) (e : OsProcess) (s : State) : State :=
  let s1 := log_call (CallWaitFor (pid p) 10)
              (log_call (CallSendSignal (pid p) CTRL_BREAK_EVENT) s) in
  match prog_shutdown (p_program e) with
  | Some d =>
      if negb (Qle_bool 10 d) then os_exit_after (pid p) d s1
      else log_call (CallWait (pid p))
             (with_procs (alter (set_returncode 1) (pid p))
                (log_call (CallKill (pid p)) (with_now (Qred (now s + 10)) s1)))
  | None =>
      log_call (CallWait (pid p))
        (with_procs (alter (set_returncode 1) (pid p))
           (log_call (CallKill (pid p)) (with_now (Qred (now s + 10)) s1)))
  end.

(** State after [stop] has dealt with the reader task of record [r]. *)
Definition reader_cancelled (r : ManagedService) (s : State) : State :=
  match _reader_task r with
  | Some t =>
      if from_option task_is_done true (tasks s !! t) then s
      else with_tasks (alter request_cancel t) s
  | None => s
  end.

(** Two machines used to exercise the statements: one whose services shut
    down two seconds after being asked, one whose services ignore the
    request. *)
Definition machine : State := boot (installed well_behaved) 4000 1000.

Definition stubborn_machine : State := boot (installed stubborn) 4000 1000.

Definition whisper_up : State := run (start "whisper") machine.

Definition whisper_record : ManagedService :=
  {| name := "whisper"; process := Some {| pid := 4000 |}; logs := [];
     started_at := Some 1000%Q; _reader_task := Some 0%nat |}.

(** The uvicorn executable of [cfg] exists and can be run. *)
Definition launchable (s : State) (cfg : ServiceCfg) : bool :=
  match fs s !! path_str (cfg_uvicorn cfg) with
  | Some prog => prog_launchable prog
  | None => false
  end.

(** A machine on which the whisper executable is absent. *)
Definition bare_machine : State := boot ∅ 4000 1000.

(** A stubborn whisper: it ignores the signal, whose delivery fails. *)
Definition stubborn_up : State := run (start "whisper") stubborn_machine.

(** The reading of C4 that the code does not meet: after stop has returned,
    the record stores no process handle. *)
Definition stop_clears_handle (s : State) (k : string) : Prop :=
  ∀ d s' r, stop k s = (Return d, s') → _services s' !! k = Some r → process r = None.

Inductive lifecycle_op := OpStart | OpStop | OpRestart | OpStatus.

Definition run_op (op : lifecycle_op) (k : string) : M (gmap string pyval) :=
  match op with
  | OpStart => start k
  | OpStop => stop k
  | OpRestart => restart k
  | OpStatus => status k
  end.

Definition status_fields : gset string :=
  {[ "service"; "running"; "pid"; "port"; "uptime_seconds" ]}.

Definition messages : list string :=
  ["Already running"; "Started"; "Not running"; "Stopped"].

(** The messages an operation can attach. *)
Definition messages_of (op : lifecycle_op) : list string :=
  match op with
  | OpStart | OpRestart => ["Already running"; "Started"]
  | OpStop => ["Not running"; "Stopped"]
  | OpStatus => []
  end.

(** What [status_dict] builds. *)
Definition bare_snapshot (d : gmap string pyval) : Prop :=
  ∃ nm b p port u,
    d = <["service" := PStr nm]> (<["running" := PBool b]>
        (<["pid" := py_opt PInt p]> (<["port" := PInt port]>
        (<["uptime_seconds" := py_opt PFloat u]> ∅)))).

(** [{**status_dict, "message": m}] with [m] among [ms]. *)
Definition annotated (ms : list string) (d : gmap string pyval) : Prop :=
  ∃ d0 m, bare_snapshot d0 ∧ m ∈ ms ∧ d = <["message" := PStr m]> d0.

(** The reading of C7 that the code does not meet: the snapshot returned by
    status carries a message. *)
Definition status_has_message (s : State) (k : string) : Prop :=
  ∀ d s', status k s = (Return d, s') →
          ∃ m, d !! "message" = Some (PStr m) ∧ m ∈ messages.

(** The task has finished, or its cancellation has been requested. *)
Definition wound_down (task : Task) : Prop :=
  task_is_done task = true ∨ t_must_cancel task = true.

(** The reading of C8 that the code does not meet: when start replaces the
    process handle of a record, the task the record held has been cancelled
    or has finished by the time the new one exists. *)
Definition replaced_task_cancelled (s : State) (k : string) : Prop :=
  ∀ r t d s' r',
    _services s !! k = Some r → _reader_task r = Some t →
    start k s = (Return d, s') →
    _services s' !! k = Some r' → process r' ≠ process r →
    ∃ task, tasks s' !! t = Some task ∧ wound_down task.

(** whisper has been started, its reader has begun to read, the process has
    written a line and has then died by itself. *)
Definition whisper_crashed : State :=
  os_exit 4000 (os_write 4000 "Traceback" (task_step 0 whisper_up)).

(** ** More of the lifecycle: states and predicates of the further proofs *)

(** The state [Popen] leaves when it has launched [prog] from state [s]. *)
Definition launched (cmd : list string) (cwd : string) (prog : Program) (s : State) : State :=
  log_call (CallSpawn (next_pid s) cmd cwd)
    (with_next_pid (next_pid s + 1)
       (with_procs (insert (next_pid s)
                      {| p_cmd := cmd; p_cwd := cwd; p_program := prog;
                         p_returncode := None; p_stdout := [] |}) s)).


(** The record stored under [j] is [v]. *)
Definition record_is (j : string) (v : option ManagedService) (s : State) : Prop :=
  _services s !! j = v.

Fixpoint ends_with_LF (s : string) : bool :=
  match s with
  | EmptyString => false
  | String c EmptyString => Ascii.eqb c LF
  | String _ rest => ends_with_LF rest
  end.

(** [n] line feeds. *)
Fixpoint newlines (n : nat) : string :=
  match n with
  | O => EmptyString
  | S n => String LF (newlines n)
  end.

(** whisper is up, its reader reads, and the process has written two
    lines. *)
Definition whisper_talking : State :=
  os_write 4000 ("ready" +:+ newlines 1)
    (os_write 4000 ("loading" +:+ newlines 1) (task_step 0 whisper_up)).

(** 501 lines, as a child prints them. *)
Definition flood : list string :=
  (λ i : nat, "step " +:+ pretty i +:+ newlines 1) <$> seq 0 501.

(** whisper is up, its reader reads, and the process has printed [flood]. *)
Definition whisper_flooded : State :=
  foldl (λ s line, os_write 4000 line s) (task_step 0 whisper_up) flood.

(** A registry entry without its log buffer: presence, handle, start time
    and reader task. *)
Definition sans_logs (v : option ManagedService) : option ManagedService :=
  set_logs [] <$> v.

(** Every entry of the process table has a pid below the next one to be
    handed out. *)
Definition pid_ok (s : State) : Prop :=
  ∀ q e, procs s !! q = Some e → q < next_pid s.

(** ** The HTTP proxy (mcp/service_proxy.py) and the tools (mcp/server.py) *)

(** Exceptions of the proxy layer. *)
Inductive proxy_exn :=
| UnknownService (service : string)   (* ValueError("Unknown service: ...") *)
| RequestFailed (detail : string).    (* any httpx or JSON error of the request *)

Definition SERVICE_URLS : gmap string string :=
  {[ "whisper" := "http://localhost:8100";
     "tts" := "http://localhost:8200" ]}.

(** [service_proxy._url]. *)
Definition _url (service : string) : proxy_exn + string :=
  match SERVICE_URLS !! service with
  | None => inl (UnknownService service)
  | Some url => inr url
  end.

(** [service_proxy.health].  [http_get url] stands for the request
    [client.get(url)], [raise_for_status()] and [resp.json()] together: the
    JSON document of the answer, or the exception raised on the way. *)
Definition health {JSON} (http_get : string → proxy_exn + JSON) (service : string)
    : proxy_exn + JSON :=
  match _url service with
  | inl e => inl e
  | inr url => http_get (url +:+ "/health")
  end.

(** What the tools report for the health of a service: the document of the
    service, or [{"status": "unreachable", "error": str(e)}]. *)
Inductive health_report (JSON : Type) :=
| Healthy (body : JSON)
| Unreachable (error : proxy_exn).
Arguments Healthy {JSON} body.
Arguments Unreachable {JSON} error.

(** The [try ... except Exception as e] around [service_proxy.health]. *)
Definition checked_health {JSON} (http_get : string → proxy_exn + JSON)
    (service : string) : health_report JSON :=
  match health http_get service with
  | inr body => Healthy body
  | inl e => Unreachable e
  end.

(** Tool [service_health]. *)
Definition service_health {JSON} (http_get : string → proxy_exn + JSON)
    (service : string) : proxy_exn + health_report JSON :=
  inr (checked_health http_get service).

(** Tool [service_status]. *)
Definition service_status (service : string) : M (gmap string pyval) :=
  status service.

(** A value of the dict [{**status, "health": health}]. *)
Inductive overview_val (JSON : Type) :=
| Field (v : pyval)
| HealthField (h : health_report JSON).
Arguments Field {JSON} v.
Arguments HealthField {JSON} h.

(** What the tools report for the GPU: the document of gpu_info, or
    [{"error": str(e)}]. *)
Inductive gpu_report (GPU E : Type) :=
| GpuInfo (g : GPU)
| GpuError (e : E).
Arguments GpuInfo {GPU E} g.
Arguments GpuError {GPU E} e.

(** The keys of SERVICE_CONFIG in the order of the dict literal. *)
Definition SERVICE_NAMES : list string := ["whisper"; "tts"].

(** What the event loop runs while a coroutine is suspended at an [await]:
    it schedules reader tasks, and meanwhile the children write or exit and
    time passes.  (Other tool calls arriving in the meantime are not
    considered.) *)
Inductive loop_event :=
| EvTask (t : nat)
| EvWrite (pid : Z) (line : string)
| EvExit (pid : Z)
| EvTick (d : Q).

Definition run_event (ev : loop_event) (s : State) : State :=
  match ev with
  | EvTask t => task_step t s
  | EvWrite pid line => if decide (line = "") then s else os_write pid line s
  | EvExit pid => os_exit pid s
  | EvTick d => os_tick d s
  end.

(** An [await] during which the loop runs [events]. *)
Definition await (events : list loop_event) : M unit :=
  modify (λ s, foldl (λ s ev, run_event ev s) s events).

(** The loop [for name in SERVICE_CONFIG] of [services_overview];
    [during name] is what the loop runs while the health request of [name]
    is awaited. *)
Fixpoint overview_loop {JSON} (http_get : string → proxy_exn + JSON)
    (during : string → list loop_event)
    (names : list string) (results : list (string * gmap string (overview_val JSON)))
    : M (list (string * gmap string (overview_val JSON))) :=
  match names with
  | [] => mret results
  | name :: rest =>
      st ← status name;
      await (during name);;
      let h := checked_health http_get name in
      overview_loop http_get during rest
        (results ++ [(name, <["health" := HealthField h]> (Field <$> st))])
  end.

(** Tool [services_overview]; [gpu_info] is what [gpu_monitor.gpu_info()]
    gives, its document or the exception it raises, and [during_gpu] what
    the loop runs while it is awaited. *)
Definition services_overview {JSON GPU E} (http_get : string → proxy_exn + JSON)
    (during : string → list loop_event) (gpu_info : E + GPU)
    (during_gpu : list loop_event)
    : M (list (string * gmap string (overview_val JSON)) * gpu_report GPU E) :=
  results ← overview_loop http_get during SERVICE_NAMES [];
  await during_gpu;;
  let gpu := match gpu_info with
             | inr g => GpuInfo g
             | inl e => GpuError e
             end in
  mret (results, gpu).

(** ** The nvidia-smi wrapper (mcp/gpu_monitor.py)

    Text is a [string] whose characters are the code points below 256. *)

Definition code (c : Ascii.ascii) : N := Ascii.N_of_ascii c.

(** [c.isspace()]. *)
Definition is_space (c : Ascii.ascii) : bool :=
  bool_decide (code c ∈ [9; 10; 11; 12; 13; 28; 29; 30; 31; 32; 133; 160]%N).

(** The line boundaries of [str.splitlines]. *)
Definition is_linebreak (c : Ascii.ascii) : bool :=
  bool_decide (code c ∈ [10; 11; 12; 13; 28; 29; 30; 133]%N).

Fixpoint lstrip (s : string) : string :=
  match s with
  | EmptyString => EmptyString
  | String c rest => if is_space c then lstrip rest else s
  end.

Fixpoint rstrip (s : string) : string :=
  match s with
  | EmptyString => EmptyString
  | String c rest =>
      match rstrip rest with
      | EmptyString => if is_space c then EmptyString else String c EmptyString
      | r => String c r
      end
  end.

(** [s.strip()]. *)
Definition strip (s : string) : string := rstrip (lstrip s).

(** [s.splitlines()]: a carriage return followed by a line feed ends one
    line; no empty line is reported after the last boundary. *)
Fixpoint splitlines (s : string) : list string :=
  match s with
  | EmptyString => []
  | String c rest =>
      if is_linebreak c then
        match rest with
        | String c2 rest2 =>
            if bool_decide (code c = 13%N) && bool_decide (code c2 = 10%N)
            then EmptyString :: splitlines rest2
            else EmptyString :: splitlines rest
        | EmptyString => [EmptyString]
        end
      else
        match splitlines rest with
        | line :: lines => String c line :: lines
        | [] => [String c EmptyString]
        end
  end.

(** [s.split(",")]. *)
Fixpoint split_comma (s : string) : list string :=
  match s with
  | EmptyString => [EmptyString]
  | String c rest =>
      if bool_decide (code c = 44%N) then EmptyString :: split_comma rest
      else match split_comma rest with
           | field :: fields => String c field :: fields
           | [] => [String c EmptyString]
           end
  end.

(** The value of a decimal digit. *)
Definition digit_value (c : Ascii.ascii) : option Z :=
  let n := code c in
  if bool_decide (48 ≤ n ≤ 57)%N then Some (Z.of_N n - 48) else None.

(** The digits of an integer literal after its sign: at least one digit,
    single underscores only between digits, at most [limit] digits. *)
Fixpoint int_digits (limit : nat) (acc : Z) (after_digit : bool) (s : string) : option Z :=
  match s with
  | EmptyString => if after_digit then Some acc else None
  | String c rest =>
      match digit_value c with
      | Some d =>
          match limit with
          | O => None
          | S limit' => int_digits limit' (acc * 10 + d) true rest
          end
      | None =>
          if bool_decide (code c = 95%N) && after_digit
          then int_digits limit acc false rest
          else None
      end
  end.

(** sys.get_int_max_str_digits() *)
Definition INT_MAX_STR_DIGITS : nat := 4300.

(** [int(s)]; [None] is ValueError. *)
Definition py_int (s : string) : option Z :=
  match strip s with
  | String c rest =>
      if bool_decide (code c = 43%N) then int_digits INT_MAX_STR_DIGITS 0 false rest
      else if bool_decide (code c = 45%N)
           then Z.opp <$> int_digits INT_MAX_STR_DIGITS 0 false rest
           else int_digits INT_MAX_STR_DIGITS 0 false (String c rest)
  | EmptyString => None
  end.

Inductive gpu_exn :=
| SmiNotStarted                       (* create_subprocess_exec raised *)
| RuntimeError (stderr : string)      (* "nvidia-smi failed: ..." *)
| IntValueError (literal : string).   (* int() of a field failed *)

(** What a run of nvidia-smi gives. *)
Record SmiRun := {
  smi_returncode : Z;
  smi_stdout : string;
  smi_stderr : string;
}.

(** [_run_smi], given the run of the subprocess or the failure to start
    it. *)
Definition _run_smi (run : option SmiRun) : gpu_exn + string :=
  match run with
  | None => inl SmiNotStarted
  | Some r =>
      if bool_decide (smi_returncode r ≠ 0) then inl (RuntimeError (strip (smi_stderr r)))
      else inr (strip (smi_stdout r))
  end.

(** [parts[i]]; the loop reads an index only after it has checked the
    length. *)
Definition part (parts : list string) (i : nat) : string := default "" (parts !! i).

(** [[p.strip() for p in line.split(",")]]. *)
Definition fields (line : string) : list string := strip <$> split_comma line.

(** The body of the loop of [gpu_process_list] for one line: [None] is
    [continue], otherwise the dict to append or the exception. *)
Definition process_row (line : string) : option (gpu_exn + gmap string pyval) :=
  if bool_decide (strip line = "") then None
  else
    let parts := fields line in
    if (length parts <? 4)%nat then None
    else Some
      match py_int (part parts 0) with
      | None => inl (IntValueError (part parts 0))
      | Some p =>
          match py_int (part parts 3) with
          | None => inl (IntValueError (part parts 3))
          | Some m =>
              inr (<["pid" := PInt p]>
                   (<["process_name" := PStr (part parts 1)]>
                   (<["gpu_uuid" := PStr (part parts 2)]>
                   (<["vram_used_mb" := PInt m]> ∅))))
          end
      end.

(** The loop [for line in csv.splitlines()]. *)
Fixpoint process_rows (lines : list string) (processes : list (gmap string pyval))
    : gpu_exn + list (gmap string pyval) :=
  match lines with
  | [] => inr processes
  | line :: rest =>
      match process_row line with
      | None => process_rows rest processes
      | Some (inl e) => inl e
      | Some (inr d) => process_rows rest (processes ++ [d])
      end
  end.

(** [gpu_process_list]; the result is the list under the key "processes". *)
Definition gpu_process_list (run : option SmiRun) : gpu_exn + list (gmap string pyval) :=
  match _run_smi run with
  | inl e => inl e
  | inr csv => process_rows (splitlines csv) []
  end.

(** The line has the four fields of a process row. *)
Definition listed (line : string) : bool := (4 <=? length (fields line))%nat.

(** The dict [d] is the row of [line]. *)
Definition row_of (line : string) (d : gmap string pyval) : Prop :=
  ∃ p m,
    py_int (part (fields line) 0) = Some p ∧ py_int (part (fields line) 3) = Some m ∧
    d = <["pid" := PInt p]>
        (<["process_name" := PStr (part (fields line) 1)]>
        (<["gpu_uuid" := PStr (part (fields line) 2)]>
        (<["vram_used_mb" := PInt m]> ∅))).

(** One of the two integer fields of the line is not an integer literal. *)
Definition malformed (line : string) : Prop :=
  listed line = true ∧
  (py_int (part (fields line) 0) = None ∨ py_int (part (fields line) 3) = None).

Definition nl : string := String LF "".

Definition smi_two_rows : SmiRun :=
  {| smi_returncode := 0;
     smi_stdout := "1234, python.exe, GPU-abc, 2048" +:+ nl +:+ "no GPU process" +:+ nl
                   +:+ "88, uvicorn.exe, GPU-abc, 512" +:+ nl;
     smi_stderr := "" |}.

Definition smi_no_permission : SmiRun :=
  {| smi_returncode := 0;
     smi_stdout := "1234, python.exe, GPU-abc, 2048" +:+ nl
                   +:+ "88, uvicorn.exe, GPU-abc, [N/A]" +:+ nl;
     smi_stderr := "" |}.

(** * Properties *)

(** ** The ring buffer *)

Section RingBuffer.
Context {A : Type}.
Implicit Types d l a b : list A.
Implicit Types n : nat.

Lemma lastn_length n l : length (lastn n l) = (length l `min` n)%nat.
Proof. unfold lastn. rewrite length_drop. lia. Qed.

Lemma lastn_all n l : (length l ≤ n)%nat → lastn n l = l.
Proof.
  intros Hle. unfold lastn.
  replace (length l - n)%nat with 0%nat by lia. reflexivity.
Qed.

Lemma lastn_app_lastn n a b : lastn n (lastn n a ++ b) = lastn n (a ++ b).
Proof.
  destruct (decide (length a ≤ n)%nat) as [Hle|Hgt].
  - by rewrite (lastn_all n a).
  - unfold lastn at 1 3.
    rewrite !length_app, lastn_length.
    unfold lastn.
    replace (length a `min` n + length b - n)%nat with (length b - 0 - 0)%nat by lia.
    replace (length a + length b - n)%nat
      with (length a - n + (length b - 0 - 0))%nat by lia.
    generalize (length b - 0 - 0)%nat as k. intros k.
    rewrite !drop_app.
    rewrite length_drop, drop_drop.
    do 2 f_equal. lia.
Qed.

Lemma deque_append_lastn n d x :
  (length d ≤ n)%nat → deque_append n d x = lastn n (d ++ [x]).
Proof.
  intros Hle. unfold deque_append, lastn.
  rewrite length_app. simpl length.
  destruct (Nat.ltb_spec n (length d + 1)) as [Hfull|Hroom].
  - replace (length d + 1 - n)%nat with 1%nat by lia.
    destruct d; reflexivity.
  - replace (length d + 1 - n)%nat with 0%nat by lia. reflexivity.
Qed.

Lemma deque_append_length n d x :
  (length d ≤ n)%nat → (length (deque_append n d x) ≤ n)%nat.
Proof.
  intros Hle. rewrite deque_append_lastn by done.
  rewrite lastn_length. lia.
Qed.

(** FIFO: a full deque loses exactly its oldest item. *)
Lemma deque_append_full n d x y :
  length (x :: d) = n → deque_append n (x :: d) y = d ++ [y].
Proof.
  intros Hlen. unfold deque_append. rewrite length_app. simpl in *.
  destruct (Nat.ltb_spec n (S (length d + 1))); [done | lia].
Qed.
End RingBuffer.

Lemma log_reader_lastn stream logs :
  (length logs ≤ Z.to_nat LOG_BUFFER_SIZE)%nat →
  Forall (λ line, line ≠ "") stream →
  _log_reader stream logs
  = lastn (Z.to_nat LOG_BUFFER_SIZE) (logs ++ (rstrip_nl <$> stream)).
Proof.
  intros Hle Hne. revert logs Hle.
  induction Hne as [|line rest Hline _ IH]; intros logs Hle.
  - simpl. rewrite app_nil_r. by rewrite lastn_all.
  - simpl. unfold log_reader_turn. destruct (decide (line = "")) as [->|_]; [done|].
    rewrite IH by by apply deque_append_length.
    rewrite deque_append_lastn by done.
    rewrite lastn_app_lastn. by rewrite <- app_assoc.
Qed.

Lemma log_reader_length stream logs :
  (length logs ≤ Z.to_nat LOG_BUFFER_SIZE)%nat →
  (length (_log_reader stream logs) ≤ Z.to_nat LOG_BUFFER_SIZE)%nat.
Proof.
  revert logs. induction stream as [|line rest IH]; intros logs Hle; simpl; [done|].
  unfold log_reader_turn. destruct (decide (line = "")); [done|].
  apply IH. by apply deque_append_length.
Qed.

(** ** Python slices *)

Lemma py_slice_last {A} (k : Z) (l : list A) :
  1 ≤ k → py_slice_from (- k) l = lastn (Z.to_nat k) l.
Proof.
  intros Hk. unfold py_slice_from, lastn.
  destruct (Z.ltb_spec (- k) 0); [|lia].
  f_equal. lia.
Qed.

(** ** Reading a record *)

Lemma bind_eq {A B} (m : M A) (f : A → M B) s :
  (m ≫= f) s = match m s with
               | (Return a, s') => f a s'
               | (Raise e, s') => (Raise e, s')
               | (Hang, s') => (Hang, s')
               end.
Proof. reflexivity. Qed.

Lemma bind_return {A B} (m : M A) (f : A → M B) s a s' :
  m s = (Return a, s') → (m ≫= f) s = f a s'.
Proof. intros H. rewrite bind_eq, H. reflexivity. Qed.

Lemma bind_raise {A B} (m : M A) (f : A → M B) s e s' :
  m s = (Raise e, s') → (m ≫= f) s = (Raise e, s').
Proof. intros H. rewrite bind_eq, H. reflexivity. Qed.

Lemma running_eq k s r :
  _services s !! k = Some r →
  ManagedService_running k s = (Return (alive s r), s).
Proof.
  intros Hr. unfold ManagedService_running, alive.
  rewrite bind_eq. unfold svc_of. rewrite Hr.
  destruct (process r); reflexivity.
Qed.

Lemma pid_eq k s r :
  _services s !! k = Some r →
  ManagedService_pid k s = (Return (pid <$> process r), s).
Proof.
  intros Hr. unfold ManagedService_pid. rewrite bind_eq. unfold svc_of.
  by rewrite Hr.
Qed.

Lemma uptime_eq k s r :
  _services s !! k = Some r →
  ManagedService_uptime_seconds k s = (Return (uptime s r), s).
Proof.
  intros Hr. unfold ManagedService_uptime_seconds, uptime.
  rewrite bind_eq. unfold svc_of at 1. rewrite Hr.
  destruct (started_at r) as [t0|]; [|done].
  destruct (float_truthy t0); [|done].
  rewrite (bind_return _ _ _ _ _ (running_eq _ _ _ Hr)).
  destruct (alive s r); reflexivity.
Qed.

Lemma status_dict_eq k s r cfg :
  _services s !! k = Some r →
  SERVICE_CONFIG !! name r = Some cfg →
  ManagedService_status_dict k s = (Return (snapshot s r (cfg_port cfg)), s).
Proof.
  intros Hr Hcfg. unfold ManagedService_status_dict.
  rewrite bind_eq. unfold svc_of at 1. rewrite Hr.
  unfold config. rewrite Hcfg.
  rewrite bind_eq. unfold mret at 1, M_ret at 1.
  rewrite (bind_return _ _ _ _ _ (running_eq _ _ _ Hr)).
  rewrite (bind_return _ _ _ _ _ (pid_eq _ _ _ Hr)).
  rewrite (bind_return _ _ _ _ _ (uptime_eq _ _ _ Hr)).
  reflexivity.
Qed.

Lemma get_unknown k s :
  SERVICE_CONFIG !! k = None → _get k s = (Raise (ValueError k), s).
Proof. intros Hk. unfold _get. by rewrite Hk. Qed.

Lemma get_known k s :
  is_Some (SERVICE_CONFIG !! k) → _get k s = (Return k, ensure k s).
Proof.
  intros [cfg Hk]. unfold _get, ensure. rewrite Hk.
  by destruct (_services s !! k).
Qed.

Lemma ensure_lookup k s :
  _services (ensure k s) !! k
  = Some (default (ManagedService_init k) (_services s !! k)).
Proof.
  unfold ensure. destruct (_services s !! k) as [r|] eqn:Hr; simpl.
  - done.
  - by rewrite lookup_insert_eq.
Qed.

Lemma ensure_present k s r : _services s !! k = Some r → ensure k s = s.
Proof. intros Hr. unfold ensure. by rewrite Hr. Qed.

Lemma ensure_lookup_ne k j s : k ≠ j → _services (ensure k s) !! j = _services s !! j.
Proof.
  intros Hne. unfold ensure. destruct (_services s !! k); simpl; [done|].
  by rewrite lookup_insert_ne.
Qed.

Lemma ensure_rest k s :
  tasks (ensure k s) = tasks s ∧ procs (ensure k s) = procs s ∧
  next_pid (ensure k s) = next_pid s ∧ fs (ensure k s) = fs s ∧
  now (ensure k s) = now s ∧ trace (ensure k s) = trace s.
Proof. unfold ensure. by destruct (_services s !! k). Qed.

Lemma alive_ext s s' r : procs s' = procs s → alive s' r = alive s r.
Proof. intros Hp. unfold alive, os_returncode. by rewrite Hp. Qed.

(** ** Reasoning rules for computations *)

Section Rules.
Context {A B : Type} (P : State → Prop).

Lemma preserves_ret (a : A) : preserves P (mret a).
Proof. intros s o s' HP [= <- <-]. done. Qed.

Lemma preserves_raise e : preserves P (raise (A:=A) e).
Proof. intros s o s' HP [= <- <-]. done. Qed.

Lemma preserves_gets (f : State → A) : preserves P (gets f).
Proof. intros s o s' HP [= <- <-]. done. Qed.

Lemma preserves_modify f : (∀ s, P s → P (f s)) → preserves P (modify f).
Proof. intros Hf s o s' HP [= <- <-]. auto. Qed.

Lemma preserves_bind (m : M A) (f : A → M B) :
  preserves P m → (∀ a, preserves P (f a)) → preserves P (m ≫= f).
Proof.
  intros Hm Hf s o s' HP. rewrite bind_eq.
  destruct (m s) as [[a|e|] s1] eqn:Hms.
  - intros Hfa. eapply Hf; [|exact Hfa]. eapply Hm; eauto.
  - intros [= <- <-]. eapply Hm; eauto.
  - intros [= <- <-]. eapply Hm; eauto.
Qed.

Lemma preserves_try_except (m : M A) handles handler :
  preserves P m → preserves P handler → preserves P (try_except m handles handler).
Proof.
  intros Hm Hh s o s' HP. unfold try_except.
  destruct (m s) as [[a|e|] s1] eqn:Hms.
  - intros [= <- <-]. eapply Hm; eauto.
  - destruct (handles e).
    + intros Hhs. eapply Hh; [|exact Hhs]. eapply Hm; eauto.
    + intros [= <- <-]. eapply Hm; eauto.
  - intros [= <- <-]. eapply Hm; eauto.
Qed.

Lemma returns_ret (Q : A → Prop) a : Q a → returns Q (mret a).
Proof. intros HQ s a' s' [= <- <-]. done. Qed.

Lemma returns_raise (Q : A → Prop) e : returns Q (raise e).
Proof. intros s a' s' [=]. Qed.

Lemma returns_bind (Q : B → Prop) (m : M A) (f : A → M B) :
  (∀ a, returns Q (f a)) → returns Q (m ≫= f).
Proof.
  intros Hf s b s'. rewrite bind_eq.
  destruct (m s) as [[a|e|] s1]; [|done..].
  apply Hf.
Qed.
End Rules.

(** ** The registry invariant *)

Lemma Inv_frame s s' :
  _services s' = _services s → tasks s' = tasks s → Inv s → Inv s'.
Proof.
  intros Hs Ht HI k r Hr. rewrite Hs in Hr.
  destruct (HI k r Hr) as [H1 H2 H3 H4].
  split; try done. intros t Ht'. rewrite Ht. auto.
Qed.

Lemma Inv_boot files first_pid clock : Inv (boot files first_pid clock).
Proof. intros k r Hr. simpl in Hr. by rewrite lookup_empty in Hr. Qed.

Lemma Inv_ensure k s : is_Some (SERVICE_CONFIG !! k) → Inv s → Inv (ensure k s).
Proof.
  intros Hk HI. unfold ensure.
  destruct (_services s !! k) as [r0|] eqn:Hr0; [done|].
  intros j r. simpl. rewrite lookup_insert.
  case_decide as Hj.
  - intros [= <-]. subst j. split; simpl; try done. lia.
  - intros Hr. destruct (HI j r Hr). by split.
Qed.

Lemma preserves_get k : preserves Inv (_get k).
Proof.
  intros s o s' HI. destruct (SERVICE_CONFIG !! k) as [cfg|] eqn:Hk.
  - rewrite get_known by eauto. intros [= <- <-]. apply Inv_ensure; eauto.
  - rewrite get_unknown by done. by intros [= <- <-].
Qed.

(** A change of the tasks that keeps what each task reads and for whom. *)
Lemma Inv_retask (f : Task → Task) t s :
  (∀ task, t_svc (f task) = t_svc task ∧ t_pc (f task) = t_pc task) →
  Inv s → Inv (with_tasks (alter f t) s).
Proof.
  intros Hf HI k r Hr. simpl in Hr.
  destruct (HI k r Hr) as [H1 H2 H3 H4]. split; try done.
  intros t' Ht'. destruct (H4 t' Ht') as (task & Hl & Hsvc & Hpc). simpl.
  rewrite list_lookup_alter. case_decide as Heq.
  - subst t'. rewrite Hl. simpl. eexists. split; [done|].
    destruct (Hf task) as [-> ->]. done.
  - eauto.
Qed.

(** A change of one record that keeps everything the invariant reads, the
    ring buffer apart. *)
Lemma Inv_relog (l : list string) k s :
  (length l ≤ Z.to_nat LOG_BUFFER_SIZE)%nat →
  Inv s → Inv (with_services (alter (set_logs l) k) s).
Proof.
  intros Hl HI j r. simpl. rewrite lookup_alter. case_decide as Hj.
  - subst j. destruct (_services s !! k) as [r0|] eqn:Hr0; [|done].
    simpl. intros [= <-]. destruct (HI k r0 Hr0). by split.
  - intros Hr. destruct (HI j r Hr). by split.
Qed.

(** ** Computations that only read, or only touch the operating system *)

Lemma readonly_preserves {A} P (m : M A) : readonly m → preserves P m.
Proof. intros Hm s o s' HP Hms. by rewrite (Hm _ _ _ Hms). Qed.

Lemma os_only_preserves {A} (m : M A) : os_only m → preserves Inv m.
Proof.
  intros Hm s o s' HI Hms. destruct (Hm _ _ _ Hms) as [Hs Ht].
  by eapply Inv_frame.
Qed.

Lemma readonly_ret {A} (a : A) : readonly (mret a).
Proof. by intros s o s' [= _ <-]. Qed.

Lemma readonly_raise {A} e : readonly (raise (A:=A) e).
Proof. by intros s o s' [= _ <-]. Qed.

Lemma readonly_gets {A} (f : State → A) : readonly (gets f).
Proof. by intros s o s' [= _ <-]. Qed.

Lemma readonly_bind {A B} (m : M A) (f : A → M B) :
  readonly m → (∀ a, readonly (f a)) → readonly (m ≫= f).
Proof.
  intros Hm Hf s o s'. rewrite bind_eq.
  destruct (m s) as [[a|e|] s1] eqn:Hms; rewrite (Hm _ _ _ Hms).
  - apply Hf.
  - by intros [= _ <-].
  - by intros [= _ <-].
Qed.

Lemma readonly_svc_of k : readonly (svc_of k).
Proof. intros s o s'. unfold svc_of. by destruct (_services s !! k); intros [= _ <-]. Qed.

Lemma readonly_config k : readonly (config k).
Proof.
  unfold config. destruct (SERVICE_CONFIG !! k);
    [apply readonly_ret | apply readonly_raise].
Qed.

Ltac readonly_tac :=
  repeat first
    [ apply readonly_ret | apply readonly_raise | apply readonly_gets
    | apply readonly_svc_of | apply readonly_config
    | apply readonly_bind; [|intros ?]
    | match goal with
      | |- readonly (match ?x with _ => _ end) => destruct x
      end ].

Lemma readonly_running k : readonly (ManagedService_running k).
Proof. unfold ManagedService_running, poll. readonly_tac. Qed.

Lemma readonly_pid k : readonly (ManagedService_pid k).
Proof. unfold ManagedService_pid. readonly_tac. Qed.

Lemma readonly_uptime k : readonly (ManagedService_uptime_seconds k).
Proof.
  unfold ManagedService_uptime_seconds, time_time.
  readonly_tac; apply readonly_running.
Qed.

Lemma readonly_status_dict k : readonly (ManagedService_status_dict k).
Proof.
  unfold ManagedService_status_dict. readonly_tac;
    auto using readonly_running, readonly_pid, readonly_uptime.
Qed.

Lemma readonly_done t : readonly (done t).
Proof. apply readonly_gets. Qed.

Lemma os_only_send_signal proc sig : os_only (send_signal proc sig).
Proof.
  intros s o s'. unfold send_signal.
  repeat case_match; by intros [= _ <-].
Qed.

Lemma os_only_wait_for_wait proc timeout : os_only (wait_for_wait proc timeout).
Proof.
  intros s o s'. unfold wait_for_wait.
  repeat case_match; by intros [= _ <-].
Qed.

Lemma os_only_kill proc : os_only (kill proc).
Proof.
  intros s o s'. unfold kill.
  repeat case_match; by intros [= _ <-].
Qed.

Lemma os_only_wait proc : os_only (wait proc).
Proof.
  intros s o s'. unfold wait.
  repeat case_match; by intros [= _ <-].
Qed.

Lemma os_only_Popen_new cmd cwd : os_only (Popen_new cmd cwd).
Proof.
  intros s o s'. unfold Popen_new.
  repeat case_match; by intros [= _ <-].
Qed.

Lemma preserves_cancel t : preserves Inv (cancel t).
Proof.
  apply preserves_modify. intros s. apply Inv_retask.
  intros task. unfold request_cancel. by destruct (task_is_done task).
Qed.

Ltac preserves_tac :=
  repeat first
    [ apply preserves_ret | apply preserves_raise
    | apply preserves_get | apply preserves_cancel
    | apply readonly_preserves;
        first [ apply readonly_running | apply readonly_status_dict
              | apply readonly_svc_of | apply readonly_done
              | apply readonly_config ]
    | apply os_only_preserves;
        first [ apply os_only_send_signal | apply os_only_wait_for_wait
              | apply os_only_kill | apply os_only_wait ]
    | apply preserves_try_except
    | apply preserves_bind; [|intros ?]
    | match goal with
      | |- preserves _ (match ?x with _ => _ end) => destruct x
      end ].

Lemma preserves_stop k : preserves Inv (stop k).
Proof. unfold stop. preserves_tac. Qed.

Lemma preserves_status k : preserves Inv (status k).
Proof. unfold status. preserves_tac. Qed.

Lemma preserves_view_logs k n : preserves Inv (view_logs k n).
Proof. unfold view_logs. preserves_tac. Qed.

(** ** What [start] does, branch by branch *)

Lemma start_unknown k s :
  SERVICE_CONFIG !! k = None → start k s = (Raise (ValueError k), s).
Proof. intros Hk. unfold start. by rewrite (bind_raise _ _ _ _ _ (get_unknown _ _ Hk)). Qed.

Lemma start_running k cfg s r :
  SERVICE_CONFIG !! k = Some cfg →
  _services (ensure k s) !! k = Some r →
  name r = k →
  alive (ensure k s) r = true →
  start k s = (Return (<["message" := PStr "Already running"]>
                         (snapshot (ensure k s) r (cfg_port cfg))), ensure k s).
Proof.
  intros Hk Hr Hn Ha. unfold start.
  rewrite (bind_return _ _ _ _ _ (get_known k s (ex_intro _ _ Hk))).
  rewrite (bind_return _ _ _ _ _ (running_eq _ _ _ Hr)), Ha.
  rewrite <- Hn in Hk.
  by rewrite (bind_return _ _ _ _ _ (status_dict_eq _ _ _ _ Hr Hk)).
Qed.

Lemma start_fail k cfg s r e s3 :
  SERVICE_CONFIG !! k = Some cfg →
  _services (ensure k s) !! k = Some r →
  alive (ensure k s) r = false →
  Popen_new (launch_cmd cfg) (path_str (cfg_cwd cfg)) (cleared k s) = (Raise e, s3) →
  start k s = (Raise e, cleared k s).
Proof.
  intros Hk Hr Ha Hp. unfold start.
  rewrite (bind_return _ _ _ _ _ (get_known k s (ex_intro _ _ Hk))).
  rewrite (bind_return _ _ _ _ _ (running_eq _ _ _ Hr)), Ha.
  unfold config. rewrite Hk. rewrite bind_eq. unfold mret at 1, M_ret at 1.
  rewrite bind_eq. unfold update_svc at 1, modify at 1.
  fold (cleared k s). fold (launch_cmd cfg).
  assert (s3 = cleared k s) as ->.
  { revert Hp. unfold Popen_new. repeat case_match; by intros [= _ <-]. }
  by rewrite (bind_raise _ _ _ _ _ Hp).
Qed.

Lemma cleared_lookup k s r :
  _services (ensure k s) !! k = Some r →
  _services (cleared k s) !! k = Some (set_logs [] r).
Proof. intros Hr. unfold cleared. simpl. by rewrite lookup_alter_eq, Hr. Qed.

Lemma spawned_lookup k proc s r :
  _services s !! k = Some r →
  _services (spawned k proc s) !! k
  = Some (set_reader_task (Some (length (tasks s)))
            (set_started_at (Some (now s)) (set_process (Some proc) r))).
Proof. intros Hr. unfold spawned. simpl. by rewrite !lookup_alter_eq, Hr. Qed.

Lemma spawned_lookup_ne k j proc s :
  k ≠ j → _services (spawned k proc s) !! j = _services s !! j.
Proof. intros Hne. unfold spawned. simpl. by rewrite !lookup_alter_ne. Qed.

Lemma start_ok k cfg s r proc s3 :
  SERVICE_CONFIG !! k = Some cfg →
  _services (ensure k s) !! k = Some r →
  name r = k →
  alive (ensure k s) r = false →
  Popen_new (launch_cmd cfg) (path_str (cfg_cwd cfg)) (cleared k s) = (Return proc, s3) →
  start k s = (Return (<["message" := PStr "Started"]>
                         (snapshot (spawned k proc s3) (fresh_run r proc s3) (cfg_port cfg))),
               spawned k proc s3).
Proof.
  intros Hk Hr Hn Ha Hp. unfold start.
  rewrite (bind_return _ _ _ _ _ (get_known k s (ex_intro _ _ Hk))).
  rewrite (bind_return _ _ _ _ _ (running_eq _ _ _ Hr)), Ha.
  unfold config. rewrite Hk. rewrite bind_eq. unfold mret at 1, M_ret at 1.
  rewrite bind_eq. unfold update_svc at 1, modify at 1.
  fold (cleared k s). fold (launch_cmd cfg).
  rewrite (bind_return _ _ _ _ _ Hp).
  assert (_services s3 !! k = Some (set_logs [] r)) as Hr3.
  { destruct (os_only_Popen_new _ _ _ _ _ Hp) as [-> _]. by apply cleared_lookup. }
  pose proof (spawned_lookup k proc s3 _ Hr3) as Hr4.
  change (set_reader_task _ _) with (fresh_run r proc s3) in Hr4.
  assert (SERVICE_CONFIG !! name (fresh_run r proc s3) = Some cfg) as Hk4
    by (simpl; by rewrite Hn).
  pose proof (status_dict_eq _ _ _ _ Hr4 Hk4) as Hd.
  unfold update_svc, modify, time_time, gets, create_task.
  do 5 (erewrite bind_return by reflexivity).
  match goal with
  | |- (_ ≫= _) ?s4 = _ => change s4 with (spawned k proc s3)
  end.
  by rewrite (bind_return _ _ _ _ _ Hd).
Qed.

Lemma Inv_spawned k proc s :
  Inv s → Inv (spawned k proc s).
Proof.
  intros HI j r'. destruct (decide (k = j)) as [<-|Hne].
  - destruct (_services s !! k) as [r|] eqn:Hr.
    + rewrite (spawned_lookup _ _ _ _ Hr). intros [= <-].
      destruct (HI k r Hr) as [H1 H2 H3 H4]. split; simpl; try done.
      intros t [= <-]. eexists. split.
      { apply list_lookup_middle. done. }
      split; [done|]. simpl. done.
    + unfold spawned. simpl. by rewrite !lookup_alter_eq, Hr.
  - rewrite spawned_lookup_ne by done. intros Hr.
    destruct (HI j r' Hr) as [H1 H2 H3 H4]. split; try done.
    intros t Ht. destruct (H4 t Ht) as (task & Hl & Hrest).
    exists task. split; [|done]. unfold spawned. simpl.
    by apply lookup_app_l_Some.
Qed.

Lemma preserves_start k : preserves Inv (start k).
Proof.
  intros s o s' HI. destruct (SERVICE_CONFIG !! k) as [cfg|] eqn:Hk.
  2:{ rewrite start_unknown by done. by intros [= _ <-]. }
  pose proof (Inv_ensure k s (ex_intro _ _ Hk) HI) as HI1.
  pose proof (ensure_lookup k s) as Hr.
  set (r := default (ManagedService_init k) (_services s !! k)) in Hr.
  destruct (HI1 k r Hr) as [Hn _ _ _].
  destruct (alive (ensure k s) r) eqn:Ha.
  { rewrite (start_running _ _ _ _ Hk Hr Hn Ha). by intros [= _ <-]. }
  assert (Inv (cleared k s)) as HI2 by (apply Inv_relog; [simpl; lia | done]).
  destruct (Popen_new (launch_cmd cfg) (path_str (cfg_cwd cfg)) (cleared k s))
    as [[proc|e|] s3] eqn:Hp.
  - rewrite (start_ok _ _ _ _ _ _ Hk Hr Hn Ha Hp). intros [= _ <-].
    apply Inv_spawned. by eapply (os_only_preserves _ (os_only_Popen_new _ _)).
  - rewrite (start_fail _ _ _ _ _ _ Hk Hr Ha Hp). by intros [= _ <-].
  - revert Hp. unfold Popen_new. repeat case_match; done.
Qed.

Lemma preserves_restart k : preserves Inv (restart k).
Proof.
  unfold restart. apply preserves_bind; [apply preserves_stop|].
  intros _. apply preserves_start.
Qed.

(** ** The invariant holds in every reachable state *)

Lemma Inv_set_pc pc t task s :
  tasks s !! t = Some task →
  (∀ p r, pc = Reading p → _services s !! t_svc task = Some r → process r = Some p) →
  Inv s → Inv (with_tasks (alter (set_pc pc) t) s).
Proof.
  intros Ht Hpc HI k r Hr. simpl in Hr.
  destruct (HI k r Hr) as [H1 H2 H3 H4]. split; try done.
  intros t' Ht'. destruct (H4 t' Ht') as (task' & Hl & Hsvc & Hrd). simpl.
  rewrite list_lookup_alter. case_decide as Heq; [|eauto].
  subst t'. rewrite Ht. simpl. eexists. split; [done|]. simpl.
  assert (task' = task) as -> by congruence.
  split; [done|]. intros p ->. eapply Hpc; [done|]. by rewrite Hsvc.
Qed.

Lemma Inv_task_step t s : Inv s → Inv (task_step t s).
Proof.
  intros HI. unfold task_step.
  destruct (tasks s !! t) as [task|] eqn:Ht; [|done].
  destruct (t_pc task) as [|proc| |] eqn:Hpc; try done.
  - destruct (t_must_cancel task).
    { eapply Inv_set_pc; eauto. intros ?? [=]. }
    destruct (_services s !! t_svc task ≫= process) as [proc|] eqn:Hproc.
    + eapply Inv_set_pc; eauto. intros p r [= <-] Hr.
      rewrite Hr in Hproc. done.
    + eapply Inv_set_pc; eauto. intros ?? [=].
  - destruct (t_must_cancel task).
    { eapply Inv_set_pc; eauto. intros ?? [=]. }
    destruct (procs s !! pid proc) as [p|] eqn:Hp.
    2:{ eapply Inv_set_pc; eauto. intros ?? [=]. }
    destruct (p_stdout p) as [|line rest].
    { destruct (p_returncode p); [|done].
      eapply Inv_set_pc; eauto. intros ?? [=]. }
    unfold log_reader_turn. destruct (decide (line = "")).
    + eapply Inv_frame; [| |eapply (Inv_set_pc Finished); eauto]; done.
    + eapply Inv_frame; [| |eapply Inv_relog; [|exact HI]]; try done.
      apply deque_append_length.
      destruct (_services s !! t_svc task) as [r|] eqn:Hr; simpl; [|lia].
      by destruct (HI _ _ Hr).
Qed.

Lemma Inv_step s s' : step s s' → Inv s → Inv s'.
Proof.
  intros Hstep HI. destruct Hstep as
    [k s o s' H|k s o s' H|k s o s' H|k s o s' H|k n s o s' H|t s|p line s _|p s|d s].
  - exact (preserves_start _ _ _ _ HI H).
  - exact (preserves_stop _ _ _ _ HI H).
  - exact (preserves_restart _ _ _ _ HI H).
  - exact (preserves_status _ _ _ _ HI H).
  - exact (preserves_view_logs _ _ _ _ _ HI H).
  - by apply Inv_task_step.
  - by apply (Inv_frame s).
  - by apply (Inv_frame s).
  - by apply (Inv_frame s).
Qed.

Lemma reachable_Inv s : reachable s → Inv s.
Proof.
  induction 1 as [files first_pid clock|s s' _ IH Hstep].
  - apply Inv_boot.
  - by eapply Inv_step.
Qed.

Lemma reachable_run_start k s : reachable s → reachable (run (start k) s).
Proof.
  intros Hs. eapply reachable_step; [done|].
  eapply (step_start k s (fst (start k s))). unfold run. by destruct (start k s).
Qed.

Lemma reachable_run_stop k s : reachable s → reachable (run (stop k) s).
Proof.
  intros Hs. eapply reachable_step; [done|].
  eapply (step_stop k s (fst (stop k s))). unfold run. by destruct (stop k s).
Qed.

(** ** What [stop] does to a running service *)

Lemma exits_within_spec timeout e :
  exits_within timeout e = true
  ↔ ∃ d, prog_shutdown (p_program e) = Some d ∧ (d < timeout)%Q.
Proof.
  unfold exits_within. destruct (prog_shutdown (p_program e)) as [d|].
  - rewrite negb_true_iff. split.
    + intros Hle. exists d. split; [done|].
      apply Qnot_le_lt. intros Hq. apply Qle_bool_iff in Hq. congruence.
    + intros (d' & [= <-] & Hlt).
      destruct (Qle_bool timeout d) eqn:Hq; [|done].
      apply Qle_bool_iff in Hq. by apply Qlt_not_le in Hlt.
  - split; [done|]. by intros (d & [=] & _).
Qed.

Lemma signal_swallowed p s e :
  procs s !! pid p = Some e →
  try_except (send_signal p CTRL_BREAK_EVENT) is_OSError (mret tt) s
  = (Return tt, log_call (CallSendSignal (pid p) CTRL_BREAK_EVENT) s).
Proof.
  intros He. unfold try_except, send_signal. rewrite He.
  destruct (p_returncode e); [done|].
  by destruct (prog_break_raises (p_program e)).
Qed.

Lemma wait_escalates p s e :
  procs s !! pid p = Some e →
  p_returncode e = None →
  try_except (wait_for_wait p 10;; mret tt) is_TimeoutError
    (kill p;; wait p;; mret tt)
    (log_call (CallSendSignal (pid p) CTRL_BREAK_EVENT) s)
  = (Return tt, quiesced p e s).
Proof.
  intros He Hrc. unfold try_except, quiesced.
  unfold mbind, M_bind, mret, M_ret, wait_for_wait. simpl procs. rewrite He, Hrc.
  assert (∀ s1, procs s1 = procs s →
            (let (o, s2) := kill p s1 in
             match o with
             | Return _ => let (o', s3) := wait p s2 in
                           match o' with
                           | Return _ => (Return tt, s3)
                           | Raise x => (Raise x, s3)
                           | Hang => (Hang, s3)
                           end
             | Raise x => (Raise x, s2)
             | Hang => (Hang, s2)
             end)
            = (Return tt, log_call (CallWait (pid p))
                 (with_procs (alter (set_returncode 1) (pid p))
                    (log_call (CallKill (pid p)) s1)))) as Hforce.
  { intros s1 Hs1. unfold kill, os_returncode.
    rewrite Hs1, He, Hrc. unfold wait. simpl procs.
    rewrite Hs1, lookup_alter_eq, He. simpl. reflexivity. }
  destruct (prog_shutdown (p_program e)) as [d|]; simpl.
  - destruct (Qle_bool 10 d); simpl; [|done]. by rewrite Hforce.
  - by rewrite Hforce.
Qed.

Lemma quiesced_frame p e s :
  _services (quiesced p e s) = _services s ∧ tasks (quiesced p e s) = tasks s.
Proof. unfold quiesced. by repeat case_match. Qed.

Lemma quiesced_trace p e s :
  trace (quiesced p e s)
  = trace s ++ [CallSendSignal (pid p) CTRL_BREAK_EVENT; CallWaitFor (pid p) 10]
            ++ (if exits_within 10 e then [] else [CallKill (pid p); CallWait (pid p)]).
Proof.
  unfold quiesced, exits_within.
  destruct (prog_shutdown (p_program e)) as [d|]; [destruct (Qle_bool 10 d)|];
    simpl; by rewrite <- ?app_assoc.
Qed.

Lemma quiesced_exited p e s :
  procs s !! pid p = Some e → is_Some (os_returncode (quiesced p e s) (pid p)).
Proof.
  intros He. unfold quiesced, os_returncode.
  destruct (prog_shutdown (p_program e)) as [d|]; [destruct (Qle_bool 10 d)|];
    simpl; rewrite lookup_alter_eq, He; simpl; eauto.
Qed.

Lemma reader_cancelled_frame r s :
  _services (reader_cancelled r s) = _services s ∧
  procs (reader_cancelled r s) = procs s ∧
  trace (reader_cancelled r s) = trace s.
Proof. unfold reader_cancelled. by repeat case_match. Qed.

Lemma stop_running k cfg s r p e :
  SERVICE_CONFIG !! k = Some cfg →
  _services s !! k = Some r →
  name r = k →
  process r = Some p →
  procs s !! pid p = Some e →
  p_returncode e = None →
  let s' := reader_cancelled r (quiesced p e s) in
  stop k s = (Return (<["message" := PStr "Stopped"]> (snapshot s' r (cfg_port cfg))), s').
Proof.
  intros Hk Hr Hn Hp He Hrc s'. unfold stop.
  rewrite (bind_return _ _ _ _ _ (get_known k s (ex_intro _ _ Hk))).
  rewrite (ensure_present _ _ _ Hr).
  rewrite (bind_return _ _ _ _ _ (running_eq _ _ _ Hr)).
  assert (alive s r = true) as ->.
  { unfold alive, os_returncode. rewrite Hp, He, Hrc. done. }
  change (negb true) with false. cbv iota.
  rewrite bind_eq. unfold svc_of at 1. rewrite Hr, Hp.
  rewrite (bind_return _ _ _ _ _ (signal_swallowed _ _ _ He)).
  rewrite (bind_return _ _ _ _ _ (wait_escalates _ _ _ He Hrc)).
  destruct (quiesced_frame p e s) as [Hqs Hqt].
  rewrite bind_eq. unfold svc_of at 1. rewrite Hqs, Hr.
  assert ((match _reader_task r with
           | Some task => finished ← done task;
                          if negb finished then cancel task else mret ()
           | None => mret ()
           end) (quiesced p e s) = (Return tt, s')) as Hcancel.
  { subst s'. unfold reader_cancelled. destruct (_reader_task r) as [t|]; [|done].
    rewrite bind_eq. unfold done, gets.
    by destruct (from_option task_is_done true (tasks (quiesced p e s) !! t)). }
  rewrite (bind_return _ _ _ _ _ Hcancel).
  assert (_services s' !! k = Some r) as Hr'.
  { subst s'. destruct (reader_cancelled_frame r (quiesced p e s)) as [-> _].
    by rewrite Hqs. }
  rewrite <- Hn in Hk.
  by rewrite (bind_return _ _ _ _ _ (status_dict_eq _ _ _ _ Hr' Hk)).
Qed.

Lemma capacity_500 : Z.to_nat LOG_BUFFER_SIZE = 500%nat.
Proof. reflexivity. Qed.

Lemma is_running_spec s k :
  is_running s k = true
  ↔ ∃ r p e, _services s !! k = Some r ∧ process r = Some p ∧
             procs s !! pid p = Some e ∧ p_returncode e = None.
Proof.
  unfold is_running. split.
  - destruct (_services s !! k) as [r|] eqn:Hr.
    + rewrite (running_eq _ _ _ Hr). unfold alive, os_returncode.
      destruct (process r) as [p|] eqn:Hp; [|done].
      destruct (procs s !! pid p) as [e|] eqn:He.
      * intros Hrc%bool_decide_eq_true. by exists r, p, e.
      * intros Hrc%bool_decide_eq_true. done.
    + unfold ManagedService_running. rewrite bind_eq. unfold svc_of.
      by rewrite Hr.
  - intros (r & p & e & Hr & Hp & He & Hrc).
    rewrite (running_eq _ _ _ Hr). unfold alive, os_returncode.
    rewrite Hp, He, Hrc. done.
Qed.

Lemma is_running_alive s k r :
  _services s !! k = Some r → is_running s k = alive s r.
Proof. intros Hr. unfold is_running. by rewrite (running_eq _ _ _ Hr). Qed.

Lemma stop_unknown k s :
  SERVICE_CONFIG !! k = None → stop k s = (Raise (ValueError k), s).
Proof. intros Hk. unfold stop. by rewrite (bind_raise _ _ _ _ _ (get_unknown _ _ Hk)). Qed.

Lemma status_present k s r :
  reachable s → _services s !! k = Some r →
  ∃ cfg, SERVICE_CONFIG !! k = Some cfg ∧
         status k s = (Return (snapshot s r (cfg_port cfg)), s).
Proof.
  intros Hs Hr. destruct (reachable_Inv s Hs k r Hr) as [Hn [cfg Hk] _ _].
  exists cfg. split; [done|]. unfold status.
  rewrite (bind_return _ _ _ _ _ (get_known k s (ex_intro _ _ Hk))).
  rewrite (ensure_present _ _ _ Hr). rewrite <- Hn in Hk.
  by apply status_dict_eq.
Qed.

Lemma view_logs_known k n s :
  is_Some (SERVICE_CONFIG !! k) →
  let r := default (ManagedService_init k) (_services s !! k) in
  let c := Z.max 1 (Z.min n LOG_BUFFER_SIZE) in
  let recent := py_slice_from (- c) (logs r) in
  view_logs k n s
  = (Return (<["service" := PStr k]>
             (<["lines_requested" := PInt c]>
             (<["lines_returned" := PInt (Z.of_nat (length recent))]>
             (<["logs" := PList recent]> ∅)))), ensure k s).
Proof.
  intros Hk r c recent. unfold view_logs.
  rewrite (bind_return _ _ _ _ _ (get_known k s Hk)).
  rewrite bind_eq. unfold svc_of. by rewrite ensure_lookup.
Qed.

Lemma whisper_up_reachable : reachable whisper_up.
Proof. apply reachable_run_start, reachable_boot. Qed.

Lemma whisper_up_record : _services whisper_up !! "whisper" = Some whisper_record.
Proof. vm_compute. reflexivity. Qed.

(** ** The reader task and [_log_reader] agree *)

(** A reader that is not cancelled and finds [stream] in the pipe of its
    process moves it into the record's buffer, one line per scheduling, as
    [_log_reader] does. *)
Lemma reader_task_drains stream : ∀ s t task k r e proc,
  tasks s !! t = Some task →
  t_pc task = Reading proc →
  t_must_cancel task = false →
  t_svc task = k →
  _services s !! k = Some r →
  procs s !! pid proc = Some e →
  p_stdout e = stream →
  Forall (λ line, line ≠ "") stream →
  logs <$> (_services (Nat.iter (length stream) (task_step t) s) !! k)
  = Some (_log_reader stream (logs r)).
Proof.
  induction stream as [|line rest IH]; intros s t task k r e proc Ht Hpc Hc Hk Hr He Hout Hne.
  - simpl. by rewrite Hr.
  - inversion Hne as [|?? Hline Hrest]; subst.
    simpl length. rewrite Nat.iter_succ_r.
    assert (task_step t s
            = with_procs (alter (set_stdout rest) (pid proc))
                (with_services
                   (alter (set_logs (deque_append (Z.to_nat LOG_BUFFER_SIZE) (logs r)
                                       (rstrip_nl line))) (t_svc task)) s)) as Hstep.
    { unfold task_step. rewrite Ht, Hpc, Hc, He, Hout, Hr. simpl.
      unfold log_reader_turn.
      destruct (decide (line = "")); [congruence|reflexivity]. }
    rewrite Hstep.
    rewrite (IH _ t task (t_svc task)
               (set_logs (deque_append (Z.to_nat LOG_BUFFER_SIZE) (logs r)
                            (rstrip_nl line)) r)
               (set_stdout rest e) proc); try done.
    + simpl. unfold log_reader_turn.
      destruct (decide (line = "")); [congruence|reflexivity].
    + simpl. by rewrite lookup_alter_eq, Hr.
    + simpl. by rewrite lookup_alter_eq, He.
Qed.

(** With the pipe drained and the process gone the reader finishes. *)
Lemma reader_task_finishes s t task proc e code :
  tasks s !! t = Some task →
  t_pc task = Reading proc →
  t_must_cancel task = false →
  procs s !! pid proc = Some e →
  p_stdout e = [] →
  p_returncode e = Some code →
  task_is_done <$> (tasks (task_step t s) !! t) = Some true.
Proof.
  intros Ht Hpc Hc He Hout Hrc. unfold task_step.
  rewrite Ht, Hpc, Hc, He, Hout, Hrc. simpl.
  by rewrite list_lookup_alter_eq, Ht.
Qed.

(** One scheduling of a reader that finds a line in the pipe. *)
Lemma reader_task_turn s t task k r e proc line rest :
  tasks s !! t = Some task →
  t_pc task = Reading proc →
  t_must_cancel task = false →
  t_svc task = k →
  _services s !! k = Some r →
  procs s !! pid proc = Some e →
  p_stdout e = line :: rest →
  line ≠ "" →
  logs <$> (_services (task_step t s) !! k)
  = Some (deque_append (Z.to_nat LOG_BUFFER_SIZE) (logs r) (rstrip_nl line)).
Proof.
  intros Ht Hpc Hc Hk Hr He Hout Hline. subst k.
  unfold task_step. rewrite Ht, Hpc, Hc, He, Hout, Hr. simpl.
  unfold log_reader_turn.
  destruct (decide (line = "")); [congruence|].
  simpl. by rewrite lookup_alter_eq, Hr.
Qed.

(** What a child writes keeps the state reachable. *)
Lemma reachable_writes pid lines : ∀ s,
  reachable s →
  Forall (λ line, line ≠ "") lines →
  reachable (foldl (λ s line, os_write pid line s) s lines).
Proof.
  induction lines as [|line rest IH]; intros s Hs Hne; [done|].
  inversion Hne; subst. simpl. apply IH; [|done].
  eapply reachable_step; [exact Hs|]. by apply step_write.
Qed.

Lemma flood_lines : Forall (λ line, line ≠ "") flood.
Proof.
  unfold flood. apply Forall_fmap, Forall_forall. intros i _.
  simpl. discriminate.
Qed.

Lemma whisper_flooded_reachable : reachable whisper_flooded.
Proof.
  apply reachable_writes; [|apply flood_lines].
  eapply reachable_step; [apply whisper_up_reachable|apply step_task].
Qed.

(** ** The claims *)

(** C3. A name that is not a key of SERVICE_CONFIG makes start, stop,
    restart, status and view_logs raise the unknown-service error
    (ValueError in the source) and leaves the whole state, hence the
    registry, as it was: no record is inserted. *)
Theorem unknown_service_rejected (nm : string) (n : Z) (s : State) :
  SERVICE_CONFIG !! nm = None →
  start nm s = (Raise (ValueError nm), s) ∧
  stop nm s = (Raise (ValueError nm), s) ∧
  restart nm s = (Raise (ValueError nm), s) ∧
  status nm s = (Raise (ValueError nm), s) ∧
  view_logs nm n s = (Raise (ValueError nm), s) ∧
  _services s !! nm = _services (run (start nm) s) !! nm.
Proof.
  intros Hk. repeat split.
  - by apply start_unknown.
  - by apply stop_unknown.
  - unfold restart. by rewrite (bind_raise _ _ _ _ _ (stop_unknown _ _ Hk)).
  - unfold status. by rewrite (bind_raise _ _ _ _ _ (get_unknown _ _ Hk)).
  - unfold view_logs. by rewrite (bind_raise _ _ _ _ _ (get_unknown _ _ Hk)).
  - unfold run. by rewrite start_unknown.
Qed.

Lemma unknown_service_rejected_witness :
  SERVICE_CONFIG !! "llama" = None ∧
  start "llama" machine = (Raise (ValueError "llama"), machine) ∧
  view_logs "llama" 50 machine = (Raise (ValueError "llama"), machine).
Proof.
  assert (SERVICE_CONFIG !! "llama" = None) as Hk by (vm_compute; reflexivity).
  destruct (unknown_service_rejected "llama" 50 machine Hk) as (H1 & _ & _ & _ & H5 & _).
  exact (conj Hk (conj H1 H5)).
Defined.

(** C10. On a record that already exists, status and view_logs return
    normally and end in the very state they started in: the record's
    process handle, log buffer, started_at and reader task, and the tasks
    themselves, are what they were. *)
Theorem queries_leave_record (k : string) (n : Z) (s : State) (r : ManagedService) :
  reachable s →
  _services s !! k = Some r →
  ∃ d1 d2 s1 s2,
    status k s = (Return d1, s1) ∧ view_logs k n s = (Return d2, s2) ∧
    s1 = s ∧ s2 = s ∧
    _services s1 !! k = Some r ∧ _services s2 !! k = Some r ∧
    tasks s1 = tasks s ∧ tasks s2 = tasks s.
Proof.
  intros Hs Hr.
  destruct (status_present k s r Hs Hr) as (cfg & Hk & Hst).
  pose proof (view_logs_known k n s (ex_intro _ _ Hk)) as Hv.
  rewrite (ensure_present _ _ _ Hr) in Hv.
  do 4 eexists. split; [exact Hst|]. split; [exact Hv|]. done.
Qed.

Lemma queries_leave_record_witness :
  ∃ d1 d2 s1 s2,
    status "whisper" whisper_up = (Return d1, s1) ∧
    view_logs "whisper" 50 whisper_up = (Return d2, s2) ∧
    s1 = whisper_up ∧ s2 = whisper_up ∧
    _services s1 !! "whisper" = Some whisper_record ∧
    _services s2 !! "whisper" = Some whisper_record ∧
    tasks s1 = tasks whisper_up ∧ tasks s2 = tasks whisper_up.
Proof.
  exact (queries_leave_record "whisper" 50 whisper_up whisper_record
           whisper_up_reachable whisper_up_record).
Defined.

(** C6. For a configured name and any integer [n], view_logs returns; the
    count it reports as lines_requested is [n] clamped to 1..500 (500 for
    10000, 1 for 0); the lines it returns are the newest ones of the ring
    buffer, in buffer order, as many as the smaller of the clamped count
    and the number available, so at most 500; and lines_returned is their
    number. *)
Theorem view_logs_clamps (k : string) (n : Z) (s : State) :
  is_Some (SERVICE_CONFIG !! k) →
  let buffer := logs (default (ManagedService_init k) (_services s !! k)) in
  let c := Z.max 1 (Z.min n 500) in
  ∃ d s' older recent,
    view_logs k n s = (Return d, s') ∧
    1 ≤ c ≤ 500 ∧ (n = 10000 → c = 500) ∧ (n = 0 → c = 1) ∧
    d !! "lines_requested" = Some (PInt c) ∧
    d !! "logs" = Some (PList recent) ∧
    d !! "lines_returned" = Some (PInt (Z.of_nat (length recent))) ∧
    buffer = older ++ recent ∧
    Z.of_nat (length recent) = Z.min c (Z.of_nat (length buffer)) ∧
    (length recent ≤ 500)%nat.
Proof.
  intros Hk buffer c.
  eexists _, (ensure k s), (take (length buffer - Z.to_nat c) buffer),
    (lastn (Z.to_nat c) buffer).
  split.
  { rewrite (view_logs_known k n s Hk). fold buffer.
    change (Z.max 1 (Z.min n LOG_BUFFER_SIZE)) with c.
    rewrite py_slice_last by lia. reflexivity. }
  assert (Z.of_nat (length (lastn (Z.to_nat c) buffer))
          = Z.min c (Z.of_nat (length buffer))) as Hlen
    by (rewrite lastn_length; lia).
  repeat split; try lia; try done.
  unfold lastn. by rewrite take_drop.
Qed.

Lemma view_logs_clamps_witness :
  ∃ d s' older recent,
    view_logs "whisper" 10000 whisper_up = (Return d, s') ∧
    1 ≤ 500 ≤ 500 ∧ (10000 = 10000 → 500 = 500) ∧ (10000 = 0 → 500 = 1) ∧
    d !! "lines_requested" = Some (PInt 500) ∧
    d !! "logs" = Some (PList recent) ∧
    d !! "lines_returned" = Some (PInt (Z.of_nat (length recent))) ∧
    logs (default (ManagedService_init "whisper") (_services whisper_up !! "whisper"))
      = older ++ recent ∧
    Z.of_nat (length recent)
      = Z.min 500 (Z.of_nat (length (logs (default (ManagedService_init "whisper")
                                              (_services whisper_up !! "whisper"))))) ∧
    (length recent ≤ 500)%nat.
Proof.
  apply (view_logs_clamps "whisper" 10000 whisper_up).
  vm_compute. eauto.
Defined.

(** C2. In every reachable state every record's log buffer holds at most 500
    lines.  Each time the event loop runs the reader task of a record on a
    pipe that holds a line, the record's buffer gains the stripped line at
    the newest end, and when the buffer is full the oldest line, and only
    it, leaves.  Once the task has read a whole stream the record holds the
    last 500 of its old lines followed by the new ones, in the order
    produced; after 501 lines it holds exactly the last 500 of them. *)
Theorem log_buffer_fifo (k : string) (s : State) (t : nat) (task : Task)
    (r : ManagedService) (e : OsProcess) (proc : Popen) (stream : list string) :
  reachable s →
  tasks s !! t = Some task →
  t_pc task = Reading proc →
  t_must_cancel task = false →
  t_svc task = k →
  _services s !! k = Some r →
  procs s !! pid proc = Some e →
  p_stdout e = stream →
  Forall (λ line, line ≠ "") stream →
  (length (logs r) ≤ 500)%nat ∧
  (∀ line rest, stream = line :: rest →
     logs <$> (_services (task_step t s) !! k)
     = Some (if decide (length (logs r) = 500%nat)
             then tail (logs r) ++ [rstrip_nl line]
             else logs r ++ [rstrip_nl line])) ∧
  ∃ r',
    _services (Nat.iter (length stream) (task_step t) s) !! k = Some r' ∧
    (length (logs r') ≤ 500)%nat ∧
    logs r' = lastn 500 (logs r ++ (rstrip_nl <$> stream)) ∧
    (length stream = 501%nat → logs r' = drop 1 (rstrip_nl <$> stream)).
Proof.
  intros Hs Ht Hpc Hc Hk Hr He Hout Hne.
  destruct (reachable_Inv s Hs k r Hr) as [_ _ Hlen _].
  rewrite capacity_500 in Hlen.
  pose proof (log_reader_lastn stream (logs r)) as Hrun.
  pose proof (log_reader_length stream (logs r)) as Hrunlen.
  rewrite capacity_500 in Hrun, Hrunlen.
  pose proof (reader_task_drains stream s t task k r e proc
                Ht Hpc Hc Hk Hr He Hout Hne) as Hdrain.
  split; [done|]. split.
  - intros line rest Hstream.
    assert (line ≠ "") as Hline by (rewrite Hstream in Hne; by inversion Hne).
    rewrite (reader_task_turn s t task k r e proc line rest) by congruence.
    f_equal. rewrite capacity_500. unfold deque_append.
    rewrite length_app. simpl length.
    case_decide as Hfull.
    + rewrite Hfull. destruct (Nat.ltb_spec 500 (500 + 1)); [|lia].
      destruct (logs r); [done|]. reflexivity.
    + destruct (Nat.ltb_spec 500 (length (logs r) + 1)); [lia|done].
  - destruct (_services (Nat.iter (length stream) (task_step t) s) !! k)
      as [r'|]; [|done].
    simpl in Hdrain. injection Hdrain as Hr'. exists r'.
    split; [done|]. rewrite Hr'. split; [by auto|]. split; [by auto|].
    intros H501. rewrite Hrun by done. unfold lastn.
    rewrite length_app, length_fmap, H501.
    replace (length (logs r) + 501 - 500)%nat with (length (logs r) + 1)%nat by lia.
    apply drop_app_add.
Qed.

Lemma log_buffer_fifo_witness :
  ∃ r',
    _services (Nat.iter (length flood) (task_step 0) whisper_flooded) !! "whisper"
    = Some r' ∧
    logs r' = drop 1 (rstrip_nl <$> flood) ∧
    length (logs r') = 500%nat ∧
    head (logs r') = Some "step 1" ∧ last (logs r') = Some "step 500".
Proof.
  assert (p_stdout <$> (procs whisper_flooded !! 4000) = Some flood) as Hpipe
    by (vm_compute; reflexivity).
  destruct (procs whisper_flooded !! 4000) as [e|] eqn:He; [|discriminate].
  injection Hpipe as Hout.
  assert (_services whisper_flooded !! "whisper" = Some whisper_record) as Hr
    by (vm_compute; reflexivity).
  assert (tasks whisper_flooded !! 0%nat
          = Some {| t_svc := "whisper"; t_pc := Reading {| pid := 4000 |};
                    t_must_cancel := false |}) as Ht
    by (vm_compute; reflexivity).
  destruct (log_buffer_fifo "whisper" whisper_flooded 0 _ whisper_record e
              {| pid := 4000 |} flood whisper_flooded_reachable Ht
              eq_refl eq_refl eq_refl Hr He Hout flood_lines)
    as (_ & _ & r' & Hr' & _ & _ & H501).
  exists r'. split; [exact Hr'|].
  rewrite (H501 eq_refl).
  repeat split; vm_compute; reflexivity.
Defined.

(** ** start on a running service, and start when the spawn fails *)

Lemma start_noop_when_running k s :
  reachable s →
  is_running s k = true →
  ∃ r p cfg,
    _services s !! k = Some r ∧ process r = Some p ∧
    SERVICE_CONFIG !! k = Some cfg ∧
    start k s = (Return (<["message" := PStr "Already running"]>
                           (snapshot s r (cfg_port cfg))), s).
Proof.
  intros Hs Hrun.
  destruct (proj1 (is_running_spec s k) Hrun) as (r & p & e & Hr & Hp & He & Hrc).
  destruct (reachable_Inv s Hs k r Hr) as [Hn [cfg Hk] _ _].
  exists r, p, cfg. repeat split; try done.
  pose proof (start_running k cfg s r Hk) as Hstart.
  rewrite (ensure_present _ _ _ Hr) in Hstart.
  apply Hstart; try done. by rewrite <- (is_running_alive s k r Hr).
Qed.

Lemma Popen_new_returned cmd cwd s proc s' :
  Popen_new cmd cwd s = (Return proc, s') →
  os_returncode s' (pid proc) = None.
Proof.
  unfold Popen_new. repeat case_match; try done.
  intros [= <- <-]. unfold os_returncode. simpl. by rewrite lookup_insert_eq.
Qed.

Lemma Popen_new_never_hangs cmd cwd s s' : Popen_new cmd cwd s ≠ (Hang, s').
Proof. unfold Popen_new. by repeat case_match. Qed.

(** Whenever [start] returns, the service is running in the state it leaves
    and the snapshot is taken from the record in that state. *)
Lemma start_returned k s0 d s :
  reachable s0 →
  start k s0 = (Return d, s) →
  ∃ r cfg m,
    _services s !! k = Some r ∧ alive s r = true ∧
    d = <["message" := PStr m]> (snapshot s r (cfg_port cfg)) ∧
    (m = "Already running" ∨ m = "Started").
Proof.
  intros Hs0. destruct (SERVICE_CONFIG !! k) as [cfg|] eqn:Hk.
  2:{ by rewrite start_unknown. }
  pose proof (Inv_ensure k s0 (ex_intro _ _ Hk) (reachable_Inv s0 Hs0)) as HI1.
  pose proof (ensure_lookup k s0) as Hr.
  set (r := default (ManagedService_init k) (_services s0 !! k)) in Hr.
  destruct (HI1 k r Hr) as [Hn _ _ _].
  destruct (alive (ensure k s0) r) eqn:Ha.
  { rewrite (start_running _ _ _ _ Hk Hr Hn Ha). intros [= <- <-].
    exists r, cfg, "Already running". auto. }
  destruct (Popen_new (launch_cmd cfg) (path_str (cfg_cwd cfg)) (cleared k s0))
    as [[proc|e|] s3] eqn:Hp.
  - rewrite (start_ok _ _ _ _ _ _ Hk Hr Hn Ha Hp). intros [= <- <-].
    exists (fresh_run r proc s3), cfg, "Started". repeat split; auto.
    + destruct (os_only_Popen_new _ _ _ _ _ Hp) as [Hs3 _].
      apply (spawned_lookup k proc s3 (set_logs [] r)).
      rewrite Hs3. by apply cleared_lookup.
    + unfold alive. simpl process. apply bool_decide_eq_true.
      rewrite <- (Popen_new_returned _ _ _ _ _ Hp). done.
  - by rewrite (start_fail _ _ _ _ _ _ Hk Hr Ha Hp).
  - by apply Popen_new_never_hangs in Hp.
Qed.

(** C5. When a call of start has returned, an immediate second call returns
    a snapshot with message "Already running" and the pid the first call
    reported, and ends in the state it began in: no process is spawned, no
    call reaches the operating system, and the record (handle, buffer,
    started_at, reader task) and the tasks are untouched. *)
Theorem start_idempotent (k : string) (s0 s : State) (d1 : gmap string pyval) :
  reachable s0 →
  start k s0 = (Return d1, s) →
  ∃ d2 p,
    start k s = (Return d2, s) ∧
    d2 !! "message" = Some (PStr "Already running") ∧
    d2 !! "running" = Some (PBool true) ∧
    d1 !! "pid" = Some (PInt p) ∧
    d2 !! "pid" = Some (PInt p).
Proof.
  intros Hs0 Hfirst.
  assert (reachable s) as Hs by (eapply reachable_step; [done|by eapply step_start]).
  destruct (start_returned k s0 d1 s Hs0 Hfirst) as (r & cfg & m & Hr & Ha & -> & _).
  assert (is_running s k = true) as Hrun by by rewrite (is_running_alive s k r Hr).
  destruct (start_noop_when_running k s Hs Hrun) as (r' & p & cfg' & Hr' & Hp & Hk' & Hsecond).
  assert (r' = r) as -> by congruence.
  exists (<["message" := PStr "Already running"]> (snapshot s r (cfg_port cfg'))), (pid p).
  split; [done|]. unfold snapshot. rewrite Ha, Hp. done.
Qed.

Lemma start_idempotent_witness :
  ∃ d2 p,
    start "whisper" whisper_up = (Return d2, whisper_up) ∧
    d2 !! "message" = Some (PStr "Already running") ∧
    d2 !! "running" = Some (PBool true) ∧
    (<["message" := PStr "Started"]> (snapshot whisper_up whisper_record 8100))
      !! "pid" = Some (PInt p) ∧
    d2 !! "pid" = Some (PInt p).
Proof.
  apply (start_idempotent "whisper" machine whisper_up).
  - apply reachable_boot.
  - vm_compute. reflexivity.
Defined.

(** C9. If the service is not running and its executable is missing or
    cannot be launched, start raises the spawn error (an OSError) to the
    caller; in the state it leaves the record holds the handle and the
    reader task it held before (none for a new record), no task and no
    process were created, and status reports running = false. *)
Theorem spawn_failure_surfaces (k : string) (cfg : ServiceCfg) (s : State) :
  reachable s →
  SERVICE_CONFIG !! k = Some cfg →
  is_running s k = false →
  launchable s cfg = false →
  ∃ e s' d,
    start k s = (Raise e, s') ∧ is_OSError e = true ∧
    _services s' !! k ≫= process = _services s !! k ≫= process ∧
    _services s' !! k ≫= _reader_task = _services s !! k ≫= _reader_task ∧
    tasks s' = tasks s ∧ procs s' = procs s ∧ trace s' = trace s ∧
    is_running s' k = false ∧
    status k s' = (Return d, s') ∧ d !! "running" = Some (PBool false).
Proof.
  intros Hs Hk Hrun Hl.
  pose proof (ensure_lookup k s) as Hr.
  set (r := default (ManagedService_init k) (_services s !! k)) in Hr.
  destruct (ensure_rest k s) as (Het & Hep & _ & Hef & _ & Hetr).
  assert (alive (ensure k s) r = false) as Ha.
  { rewrite (alive_ext s (ensure k s)) by done. subst r.
    destruct (_services s !! k) as [r0|] eqn:Hr0; simpl; [|done].
    by rewrite <- (is_running_alive s k r0 Hr0). }
  assert (∃ e, Popen_new (launch_cmd cfg) (path_str (cfg_cwd cfg)) (cleared k s)
               = (Raise e, cleared k s) ∧ is_OSError e = true) as (e & Hp & He).
  { unfold Popen_new, launchable in *. simpl. rewrite Hef.
    destruct (fs s !! path_str (cfg_uvicorn cfg)) as [prog|]; [|by eexists].
    rewrite Hl. by eexists. }
  pose proof (start_fail k cfg s r e _ Hk Hr Ha Hp) as Hstart.
  assert (reachable (cleared k s)) as Hs'
    by (eapply reachable_step; [done|by eapply step_start]).
  pose proof (cleared_lookup k s r Hr) as Hr'.
  destruct (status_present k _ _ Hs' Hr') as (cfg' & Hk' & Hst).
  assert (alive (cleared k s) (set_logs [] r) = false) as Ha'.
  { rewrite <- Ha. unfold alive. simpl. done. }
  exists e, (cleared k s), (snapshot (cleared k s) (set_logs [] r) (cfg_port cfg')).
  repeat split; try done.
  - rewrite Hr'. simpl. subst r. by destruct (_services s !! k).
  - rewrite Hr'. simpl. subst r. by destruct (_services s !! k).
  - by rewrite (is_running_alive _ _ _ Hr').
  - unfold snapshot. by rewrite Ha'.
Qed.

Lemma spawn_failure_surfaces_witness :
  ∃ e s' d,
    start "whisper" bare_machine = (Raise e, s') ∧ is_OSError e = true ∧
    _services s' !! "whisper" ≫= process = _services bare_machine !! "whisper" ≫= process ∧
    _services s' !! "whisper" ≫= _reader_task
      = _services bare_machine !! "whisper" ≫= _reader_task ∧
    tasks s' = tasks bare_machine ∧ procs s' = procs bare_machine ∧
    trace s' = trace bare_machine ∧
    is_running s' "whisper" = false ∧
    status "whisper" s' = (Return d, s') ∧ d !! "running" = Some (PBool false).
Proof.
  apply (spawn_failure_surfaces "whisper"
           {| cfg_cwd := REPO_ROOT // "whisper";
              cfg_uvicorn := REPO_ROOT // "whisper" // "venv" // "Scripts" // "uvicorn.exe";
              cfg_app := "server:app"; cfg_port := 8100 |} bare_machine).
  - apply reachable_boot.
  - vm_compute. reflexivity.
  - vm_compute. reflexivity.
  - vm_compute. reflexivity.
Defined.

(** ** stop on a running service *)

Lemma stop_when_running k s :
  reachable s →
  is_running s k = true →
  ∃ r p e cfg,
    _services s !! k = Some r ∧ process r = Some p ∧
    procs s !! pid p = Some e ∧ p_returncode e = None ∧
    stop k s = (Return (<["message" := PStr "Stopped"]>
                          (snapshot (reader_cancelled r (quiesced p e s)) r (cfg_port cfg))),
                reader_cancelled r (quiesced p e s)).
Proof.
  intros Hs Hrun.
  destruct (proj1 (is_running_spec s k) Hrun) as (r & p & e & Hr & Hp & He & Hrc).
  destruct (reachable_Inv s Hs k r Hr) as [Hn [cfg Hk] _ _].
  exists r, p, e, cfg. repeat split; try done.
  by apply stop_running.
Qed.

(** C1. On a running service stop returns a snapshot with message
    "Stopped", and the calls it makes on the process are, in this order: one
    CTRL_BREAK signal (whether or not sending it fails), one wait bounded by
    10 seconds, and then, only if the process did not exit within those 10
    seconds, one kill followed by one wait without deadline.  When the
    process exits in less than 10 seconds there is no kill. *)
Theorem stop_escalation (k : string) (s : State) :
  reachable s →
  is_running s k = true →
  ∃ r p e d s',
    _services s !! k = Some r ∧ process r = Some p ∧ procs s !! pid p = Some e ∧
    stop k s = (Return d, s') ∧
    d !! "message" = Some (PStr "Stopped") ∧
    trace s' = trace s
               ++ [CallSendSignal (pid p) CTRL_BREAK_EVENT; CallWaitFor (pid p) 10]
               ++ (if exits_within 10 e then []
                   else [CallKill (pid p); CallWait (pid p)]) ∧
    (exits_within 10 e = true
     ↔ ∃ t, prog_shutdown (p_program e) = Some t ∧ (t < 10)%Q).
Proof.
  intros Hs Hrun.
  destruct (stop_when_running k s Hs Hrun) as (r & p & e & cfg & Hr & Hp & He & Hrc & Hstop).
  exists r, p, e. do 2 eexists. repeat split; try done.
  - destruct (reader_cancelled_frame r (quiesced p e s)) as (_ & _ & ->).
    apply quiesced_trace.
  - apply exits_within_spec.
  - apply exits_within_spec.
Qed.

Lemma stop_escalation_witness :
  ∃ r p e d s',
    _services stubborn_up !! "whisper" = Some r ∧ process r = Some p ∧
    procs stubborn_up !! pid p = Some e ∧
    stop "whisper" stubborn_up = (Return d, s') ∧
    d !! "message" = Some (PStr "Stopped") ∧
    trace s' = trace stubborn_up
               ++ [CallSendSignal (pid p) CTRL_BREAK_EVENT; CallWaitFor (pid p) 10]
               ++ (if exits_within 10 e then []
                   else [CallKill (pid p); CallWait (pid p)]) ∧
    (exits_within 10 e = true
     ↔ ∃ t, prog_shutdown (p_program e) = Some t ∧ (t < 10)%Q).
Proof.
  apply (stop_escalation "whisper" stubborn_up).
  - apply reachable_run_start, reachable_boot.
  - vm_compute. reflexivity.
Defined.

(** The trace of the stubborn whisper ends with the kill, that of the well
    behaved one does not contain it. *)
Example stop_stubborn_trace :
  trace (run (stop "whisper") stubborn_up)
  = trace stubborn_up ++ [CallSendSignal 4000 CTRL_BREAK_EVENT; CallWaitFor 4000 10;
                          CallKill 4000; CallWait 4000].
Proof. vm_compute. reflexivity. Qed.

Example stop_well_behaved_trace :
  trace (run (stop "whisper") whisper_up)
  = trace whisper_up ++ [CallSendSignal 4000 CTRL_BREAK_EVENT; CallWaitFor 4000 10].
Proof. vm_compute. reflexivity. Qed.

(** C4, as stated, fails: after stop of the running whisper the record still
    stores the handle with pid 4000. *)
Lemma stop_clears_handle_counterexample :
  reachable whisper_up ∧ is_running whisper_up "whisper" = true ∧
  ¬ stop_clears_handle whisper_up "whisper".
Proof.
  split; [apply whisper_up_reachable|]. split; [vm_compute; reflexivity|].
  intros Hclaim.
  destruct (stop_when_running "whisper" whisper_up whisper_up_reachable)
    as (r & p & e & cfg & Hr & Hp & He & Hrc & Hstop); [vm_compute; reflexivity|].
  specialize (Hclaim _ _ r Hstop).
  destruct (reader_cancelled_frame r (quiesced p e whisper_up)) as (Hsv & _ & _).
  destruct (quiesced_frame p e whisper_up) as [Hq _].
  rewrite Hsv, Hq in Hclaim. specialize (Hclaim Hr). congruence.
Qed.

(** C4, amended. When stop returns for a service that was running, the
    service still has its record and the record still stores the process
    handle it stored before the call; the process behind the handle has
    exited, the service is no longer running, and the snapshot reports
    running = false with the pid of that handle. *)
Theorem stop_keeps_exited_handle (k : string) (s : State) :
  reachable s →
  is_running s k = true →
  ∃ r p d s' r',
    _services s !! k = Some r ∧ process r = Some p ∧
    stop k s = (Return d, s') ∧
    _services s' !! k = Some r' ∧ process r' = Some p ∧
    is_Some (os_returncode s' (pid p)) ∧
    is_running s' k = false ∧
    d !! "running" = Some (PBool false) ∧
    d !! "pid" = Some (PInt (pid p)).
Proof.
  intros Hs Hrun.
  destruct (stop_when_running k s Hs Hrun) as (r & p & e & cfg & Hr & Hp & He & Hrc & Hstop).
  set (s' := reader_cancelled r (quiesced p e s)) in *.
  destruct (reader_cancelled_frame r (quiesced p e s)) as (Hsv & Hpr & _).
  destruct (quiesced_frame p e s) as [Hq _].
  assert (_services s' = _services s) as Hsame by (subst s'; by rewrite Hsv).
  assert (is_Some (os_returncode s' (pid p))) as Hexit.
  { subst s'. unfold os_returncode. rewrite Hpr. by apply quiesced_exited. }
  assert (alive s' r = false) as Ha.
  { unfold alive. rewrite Hp. apply bool_decide_eq_false.
    destruct Hexit as [c Hc]. by rewrite Hc. }
  assert (_services s' !! k = Some r) as Hr' by by rewrite Hsame.
  exists r, p. do 2 eexists. exists r. split_and!; try done.
  - by rewrite (is_running_alive _ _ _ Hr').
  - unfold snapshot. by rewrite Ha.
  - unfold snapshot. by rewrite Hp.
Qed.

Lemma stop_keeps_exited_handle_witness :
  ∃ r p d s' r',
    _services whisper_up !! "whisper" = Some r ∧ process r = Some p ∧
    stop "whisper" whisper_up = (Return d, s') ∧
    _services s' !! "whisper" = Some r' ∧ process r' = Some p ∧
    is_Some (os_returncode s' (pid p)) ∧
    is_running s' "whisper" = false ∧
    d !! "running" = Some (PBool false) ∧
    d !! "pid" = Some (PInt (pid p)).
Proof.
  apply (stop_keeps_exited_handle "whisper" whisper_up whisper_up_reachable).
  vm_compute. reflexivity.
Defined.

(** ** The shape of the snapshots *)

Lemma returns_bind_with {A B} (R : A → Prop) (Q : B → Prop) (m : M A) (f : A → M B) :
  returns R m → (∀ a, R a → returns Q (f a)) → returns Q (m ≫= f).
Proof.
  intros Hm Hf s b s'. rewrite bind_eq.
  destruct (m s) as [[a|e|] s1] eqn:Hms; [|done..].
  eapply Hf. eapply Hm. exact Hms.
Qed.

Lemma returns_status_dict k : returns bare_snapshot (ManagedService_status_dict k).
Proof.
  unfold ManagedService_status_dict.
  apply returns_bind; intros r. apply returns_bind; intros cfg.
  apply returns_bind; intros up. apply returns_bind; intros p.
  apply returns_bind; intros u. apply returns_ret.
  by exists (name r), up, p, (cfg_port cfg), u.
Qed.

Ltac returns_tac :=
  repeat first
    [ eapply returns_bind_with; [apply returns_status_dict | intros ? ?]
    | apply returns_bind; intros ?
    | apply returns_raise
    | match goal with
      | |- returns _ (match ?x with _ => _ end) => destruct x
      end ].

Lemma returns_start k : returns (annotated (messages_of OpStart)) (start k).
Proof.
  unfold start. returns_tac; apply returns_ret; eexists _, _;
    (split; [eassumption|]); (split; [|reflexivity]);
    simpl; rewrite !elem_of_cons; auto.
Qed.

Lemma returns_stop k : returns (annotated (messages_of OpStop)) (stop k).
Proof.
  unfold stop. returns_tac; apply returns_ret; eexists _, _;
    (split; [eassumption|]); (split; [|reflexivity]);
    simpl; rewrite !elem_of_cons; auto.
Qed.

Lemma returns_restart k : returns (annotated (messages_of OpRestart)) (restart k).
Proof. unfold restart. apply returns_bind; intros _. apply returns_start. Qed.

Lemma returns_status k : returns bare_snapshot (status k).
Proof. unfold status. apply returns_bind; intros svc. apply returns_status_dict. Qed.

Lemma messages_of_sub op m : m ∈ messages_of op → m ∈ messages.
Proof.
  unfold messages. destruct op; simpl;
    rewrite !elem_of_cons, !elem_of_nil; tauto.
Qed.

Lemma bare_snapshot_dom d : bare_snapshot d → dom d = status_fields.
Proof.
  intros (nm & b & p & port & u & ->). unfold status_fields.
  rewrite !dom_insert_L, dom_empty_L. set_solver.
Qed.

(** C7, as stated, fails: the snapshot status returns for whisper has no
    message key. *)
Lemma status_has_message_counterexample :
  ¬ status_has_message machine "whisper".
Proof.
  intros Hclaim.
  destruct (Hclaim (match fst (status "whisper" machine) with
                    | Return d => d
                    | _ => ∅
                    end) (snd (status "whisper" machine))) as (m & Hm & _).
  - vm_compute. reflexivity.
  - vm_compute in Hm. discriminate.
Qed.

(** C7, amended. Whenever start, stop, restart or status returns, the
    snapshot has the fields service (a string), running (a bool), pid (an
    int or None), port (an int) and uptime_seconds (a float or None).  For
    start, stop and restart it has exactly one more key, message, which is
    "Already running" or "Started" for start and restart and "Not running"
    or "Stopped" for stop; for status it has no other key, in particular no
    message. *)
Theorem snapshot_shape (op : lifecycle_op) (k : string) (s s' : State)
    (d : gmap string pyval) :
  run_op op k s = (Return d, s') →
  (∃ nm b p port u,
     d !! "service" = Some (PStr nm) ∧ d !! "running" = Some (PBool b) ∧
     d !! "pid" = Some (py_opt PInt p) ∧ d !! "port" = Some (PInt port) ∧
     d !! "uptime_seconds" = Some (py_opt PFloat u)) ∧
  match op with
  | OpStatus => dom d = status_fields ∧ d !! "message" = None
  | _ => dom d = status_fields ∪ {[ "message" ]} ∧
         ∃ m, d !! "message" = Some (PStr m) ∧ m ∈ messages_of op ∧ m ∈ messages
  end.
Proof.
  intros Hrun.
  assert (match op with
          | OpStatus => bare_snapshot d
          | _ => annotated (messages_of op) d
          end) as Hshape.
  { destruct op; simpl in Hrun.
    - exact (returns_start k _ _ _ Hrun).
    - exact (returns_stop k _ _ _ Hrun).
    - exact (returns_restart k _ _ _ Hrun).
    - exact (returns_status k _ _ _ Hrun). }
  assert (∀ d0 m, bare_snapshot d0 → d = <["message" := PStr m]> d0 →
            (∃ nm b p port u,
               d !! "service" = Some (PStr nm) ∧ d !! "running" = Some (PBool b) ∧
               d !! "pid" = Some (py_opt PInt p) ∧ d !! "port" = Some (PInt port) ∧
               d !! "uptime_seconds" = Some (py_opt PFloat u)) ∧
            dom d = status_fields ∪ {[ "message" ]} ∧
            d !! "message" = Some (PStr m)) as Hann.
  { intros d0 m Hd0 ->. split; [|split].
    - destruct Hd0 as (nm & b & p & port & u & ->). by exists nm, b, p, port, u.
    - rewrite dom_insert_L, (bare_snapshot_dom _ Hd0). set_solver.
    - by rewrite lookup_insert_eq. }
  destruct op.
  1-3: destruct Hshape as (d0 & m & Hd0 & Hm & Hd);
       destruct (Hann d0 m Hd0 Hd) as (Hf & Hdom & Hmsg);
       (split; [exact Hf|]); (split; [exact Hdom|]); exists m;
       (split; [exact Hmsg|]); (split; [exact Hm|]);
       exact (messages_of_sub _ m Hm).
  split; [|split].
  - destruct Hshape as (nm & b & p & port & u & ->). by exists nm, b, p, port, u.
  - by apply bare_snapshot_dom.
  - destruct Hshape as (nm & b & p & port & u & ->). done.
Qed.

Lemma snapshot_shape_witness :
  (∃ nm b p port u,
     snapshot whisper_up whisper_record 8100 !! "service" = Some (PStr nm) ∧
     snapshot whisper_up whisper_record 8100 !! "running" = Some (PBool b) ∧
     snapshot whisper_up whisper_record 8100 !! "pid" = Some (py_opt PInt p) ∧
     snapshot whisper_up whisper_record 8100 !! "port" = Some (PInt port) ∧
     snapshot whisper_up whisper_record 8100 !! "uptime_seconds"
       = Some (py_opt PFloat u)) ∧
  dom (snapshot whisper_up whisper_record 8100) = status_fields ∧
  snapshot whisper_up whisper_record 8100 !! "message" = None.
Proof.
  apply (snapshot_shape OpStatus "whisper" whisper_up whisper_up).
  vm_compute. reflexivity.
Defined.

(** ** The reader task across stop, restart and start *)

Lemma reader_cancelled_task r s t task :
  _reader_task r = Some t →
  tasks s !! t = Some task →
  ∃ task', tasks (reader_cancelled r s) !! t = Some task' ∧ wound_down task'.
Proof.
  intros Ht Hl. unfold reader_cancelled. rewrite Ht, Hl. simpl.
  destruct (task_is_done task) eqn:Hdone.
  - exists task. split; [done|]. by left.
  - exists (request_cancel task). split.
    + simpl. by rewrite list_lookup_alter_eq, Hl.
    + right. unfold request_cancel. by rewrite Hdone.
Qed.

Lemma reader_cancelled_length r s :
  length (tasks (reader_cancelled r s)) = length (tasks s).
Proof.
  unfold reader_cancelled. repeat case_match; try done.
  simpl. apply length_alter.
Qed.

(** When [start] returns from a state in which the service is not running,
    it has spawned a process and appended one new task. *)
Lemma start_spawned k s r d s' :
  reachable s →
  _services s !! k = Some r →
  alive s r = false →
  start k s = (Return d, s') →
  ∃ proc s3, s' = spawned k proc s3 ∧ tasks s3 = tasks s ∧
             _services s3 !! k = Some (set_logs [] r).
Proof.
  intros Hs Hr Ha.
  destruct (reachable_Inv s Hs k r Hr) as [Hn [cfg Hk] _ _].
  pose proof (ensure_present k s r Hr) as Hens.
  assert (_services (ensure k s) !! k = Some r) as Hr1 by by rewrite Hens.
  assert (alive (ensure k s) r = false) as Ha1 by by rewrite Hens.
  destruct (Popen_new (launch_cmd cfg) (path_str (cfg_cwd cfg)) (cleared k s))
    as [[proc|e|] s3] eqn:Hp.
  - rewrite (start_ok _ _ _ _ _ _ Hk Hr1 Hn Ha1 Hp). intros [= _ <-].
    destruct (os_only_Popen_new _ _ _ _ _ Hp) as [Hs3 Ht3].
    exists proc, s3. split; [done|]. split.
    + rewrite Ht3. unfold cleared. simpl. by rewrite Hens.
    + rewrite Hs3. by apply cleared_lookup.
  - by rewrite (start_fail _ _ _ _ _ _ Hk Hr1 Ha1 Hp).
  - by apply Popen_new_never_hangs in Hp.
Qed.

Lemma whisper_crashed_reachable : reachable whisper_crashed.
Proof.
  unfold whisper_crashed.
  eapply reachable_step; [|apply step_exit].
  eapply reachable_step; [|by apply step_write].
  eapply reachable_step; [|apply step_task].
  apply whisper_up_reachable.
Qed.

(** C8, as stated, fails: starting the crashed whisper again replaces the
    handle and creates task 1 while task 0, still reading from the old
    process, is neither finished nor asked to cancel. *)
Lemma replaced_task_cancelled_counterexample :
  reachable whisper_crashed ∧ ¬ replaced_task_cancelled whisper_crashed "whisper".
Proof.
  split; [apply whisper_crashed_reachable|].
  intros Hclaim.
  destruct (Hclaim whisper_record 0%nat
              (match fst (start "whisper" whisper_crashed) with
               | Return d => d
               | _ => ∅
               end)
              (snd (start "whisper" whisper_crashed))
              {| name := "whisper"; process := Some {| pid := 4001 |}; logs := [];
                 started_at := Some 1000%Q; _reader_task := Some 1%nat |})
    as (task & Htask & Hdown).
  - vm_compute. reflexivity.
  - reflexivity.
  - vm_compute. reflexivity.
  - vm_compute. reflexivity.
  - discriminate.
  - vm_compute in Htask. injection Htask as <-.
    destruct Hdown as [Hd|Hc]; discriminate.
Qed.

(** After that start the old task is still scheduled and moves the line of
    the dead process into the buffer of the new run. *)
Example stale_reader_writes :
  logs <$> (_services (task_step 0 (run (start "whisper") whisper_crashed)) !! "whisper")
  = Some ["Traceback"].
Proof. vm_compute. reflexivity. Qed.

(** C8, amended. In every reachable state the reader task a record holds
    was created for that record and, once it reads, reads from the record's
    current process handle.  stop on a running service leaves that task
    finished or with its cancellation requested, creates no task and leaves
    the record holding that task.  restart is start run in the state stop
    has left: the old task is already wound down there and no new task
    exists yet; start then appends the new task, which the record holds
    from then on, and does not touch the old one. *)
Theorem capture_task_discipline (k : string) (s : State) (r : ManagedService) (t : nat) :
  reachable s →
  _services s !! k = Some r →
  _reader_task r = Some t →
  (∃ task, tasks s !! t = Some task ∧ t_svc task = k ∧
           ∀ p, t_pc task = Reading p → process r = Some p) ∧
  (is_running s k = true →
   ∃ d1 s1 task1 r1,
     stop k s = (Return d1, s1) ∧
     tasks s1 !! t = Some task1 ∧ wound_down task1 ∧
     length (tasks s1) = length (tasks s) ∧
     _services s1 !! k = Some r1 ∧ _reader_task r1 = Some t ∧
     restart k s = start k s1 ∧
     (∀ d s', restart k s = (Return d, s') →
        ∃ r' new,
          tasks s' = tasks s1 ++ [new] ∧
          tasks s' !! t = Some task1 ∧
          (t < length (tasks s))%nat ∧
          _services s' !! k = Some r' ∧ _reader_task r' = Some (length (tasks s)) ∧
          tasks s' !! length (tasks s) = Some new ∧
          t_svc new = k ∧ t_pc new = NotStarted ∧ t_must_cancel new = false)).
Proof.
  intros Hs Hr Ht.
  destruct (reachable_Inv s Hs k r Hr) as [_ _ _ Htask].
  destruct (Htask t Ht) as (task & Hl & Hsvc & Hrd).
  split; [by exists task|].
  intros Hrun.
  destruct (stop_when_running k s Hs Hrun)
    as (r0 & p & e & cfg & Hr0 & Hp & He & Hrc & Hstop).
  assert (r0 = r) as -> by congruence.
  set (s1 := reader_cancelled r (quiesced p e s)) in *.
  destruct (quiesced_frame p e s) as [Hqs Hqt].
  destruct (reader_cancelled_frame r (quiesced p e s)) as (Hcs & Hcp & _).
  assert (tasks (quiesced p e s) !! t = Some task) as Hlq by by rewrite Hqt.
  destruct (reader_cancelled_task r _ t task Ht Hlq) as (task' & Hl' & Hdown).
  assert (_services s1 !! k = Some r) as Hr1 by (subst s1; by rewrite Hcs, Hqs).
  assert (length (tasks s1) = length (tasks s)) as Hlen1
    by (subst s1; by rewrite reader_cancelled_length, Hqt).
  assert (restart k s = start k s1) as Hre
    by (unfold restart; by rewrite (bind_return _ _ _ _ _ Hstop)).
  eexists _, s1, task', r. split_and!; try done.
  intros d s' Hrestart. rewrite Hre in Hrestart.
  assert (reachable s1) as Hs1 by (eapply reachable_step; [done|by eapply step_stop]).
  assert (alive s1 r = false) as Ha1.
  { unfold alive. rewrite Hp. apply bool_decide_eq_false.
    subst s1. unfold os_returncode. rewrite Hcp.
    destruct (quiesced_exited p e s He) as [c Hc].
    unfold os_returncode in Hc. by rewrite Hc. }
  destruct (start_spawned k s1 r d s' Hs1 Hr1 Ha1 Hrestart)
    as (proc & s3 & -> & Ht3 & Hr3).
  assert (length (tasks s3) = length (tasks s)) as Hlen by by rewrite Ht3.
  assert (t < length (tasks s))%nat as Hlt by by eapply lookup_lt_Some.
  eexists _, {| t_svc := k; t_pc := NotStarted; t_must_cancel := false |}.
  split_and!; try done.
  - unfold spawned. simpl. by rewrite Ht3.
  - unfold spawned. simpl. rewrite Ht3. by apply lookup_app_l_Some.
  - rewrite (spawned_lookup k proc s3 _ Hr3). reflexivity.
  - simpl. by rewrite Hlen.
  - unfold spawned. simpl. rewrite <- Hlen. by apply list_lookup_middle.
Qed.

Lemma capture_task_discipline_witness :
  (∃ task, tasks whisper_up !! 0%nat = Some task ∧ t_svc task = "whisper" ∧
           ∀ p, t_pc task = Reading p → process whisper_record = Some p) ∧
  (is_running whisper_up "whisper" = true →
   ∃ d1 s1 task1 r1,
     stop "whisper" whisper_up = (Return d1, s1) ∧
     tasks s1 !! 0%nat = Some task1 ∧ wound_down task1 ∧
     length (tasks s1) = length (tasks whisper_up) ∧
     _services s1 !! "whisper" = Some r1 ∧ _reader_task r1 = Some 0%nat ∧
     restart "whisper" whisper_up = start "whisper" s1 ∧
     (∀ d s', restart "whisper" whisper_up = (Return d, s') →
        ∃ r' new,
          tasks s' = tasks s1 ++ [new] ∧
          tasks s' !! 0%nat = Some task1 ∧
          (0 < length (tasks whisper_up))%nat ∧
          _services s' !! "whisper" = Some r' ∧
          _reader_task r' = Some (length (tasks whisper_up)) ∧
          tasks s' !! length (tasks whisper_up) = Some new ∧
          t_svc new = "whisper" ∧ t_pc new = NotStarted ∧ t_must_cancel new = false)).
Proof.
  exact (capture_task_discipline "whisper" whisper_up whisper_record 0
           whisper_up_reachable whisper_up_record eq_refl).
Defined.

(** * More of the code *)

(** ** More of the lifecycle *)

(** The record [_get] hands out for [k] and what it says of liveness. *)
Lemma ensured_record k s :
  reachable s →
  is_Some (SERVICE_CONFIG !! k) →
  let r := default (ManagedService_init k) (_services s !! k) in
  _services (ensure k s) !! k = Some r ∧ name r = k ∧
  alive (ensure k s) r = is_running s k.
Proof.
  intros Hs Hk r.
  pose proof (ensure_lookup k s) as Hr. fold r in Hr.
  destruct (Inv_ensure k s Hk (reachable_Inv s Hs) k r Hr) as [Hn _ _ _].
  split; [done|]. split; [done|].
  destruct (ensure_rest k s) as (_ & Hp & _).
  rewrite (alive_ext s (ensure k s)) by done. subst r.
  destruct (_services s !! k) as [r0|] eqn:Hr0; simpl.
  - by rewrite (is_running_alive s k r0 Hr0).
  - unfold is_running, ManagedService_running. rewrite bind_eq.
    unfold svc_of. by rewrite Hr0.
Qed.

Lemma stop_idle (k : string) (cfg : ServiceCfg) (s : State) :
  reachable s →
  SERVICE_CONFIG !! k = Some cfg →
  is_running s k = false →
  let r := default (ManagedService_init k) (_services s !! k) in
  alive (ensure k s) r = false ∧
  stop k s = (Return (<["message" := PStr "Not running"]>
                        (snapshot (ensure k s) r (cfg_port cfg))), ensure k s).
Proof.
  intros Hs Hk Hrun r.
  destruct (ensured_record k s Hs (ex_intro _ _ Hk)) as (Hr & Hn & Ha).
  fold r in Hr, Hn, Ha. rewrite Hrun in Ha. split; [done|].
  unfold stop.
  rewrite (bind_return _ _ _ _ _ (get_known k s (ex_intro _ _ Hk))).
  rewrite (bind_return _ _ _ _ _ (running_eq _ _ _ Hr)), Ha.
  change (negb false) with true. cbv iota.
  rewrite <- Hn in Hk.
  by rewrite (bind_return _ _ _ _ _ (status_dict_eq _ _ _ _ Hr Hk)).
Qed.

(** X1. stop on a configured service that is not running returns a snapshot
    with message "Not running" and running = false; it spawns, signals,
    waits for and kills no process (the handle the record keeps is only
    polled), touches no task and no entry of the process table, and changes
    the state only by creating the record when there was none. *)
Theorem stop_not_running (k : string) (s : State) :
  reachable s →
  is_Some (SERVICE_CONFIG !! k) →
  is_running s k = false →
  ∃ d,
    stop k s = (Return d, ensure k s) ∧
    d !! "message" = Some (PStr "Not running") ∧
    d !! "running" = Some (PBool false) ∧
    d !! "uptime_seconds" = Some PNone ∧
    trace (ensure k s) = trace s ∧ tasks (ensure k s) = tasks s ∧
    procs (ensure k s) = procs s ∧
    (∀ r, _services s !! k = Some r → ensure k s = s).
Proof.
  intros Hs [cfg Hk] Hrun.
  destruct (stop_idle k cfg s Hs Hk Hrun) as (Ha & Hstop).
  set (r := default (ManagedService_init k) (_services s !! k)) in *.
  destruct (ensure_rest k s) as (Ht & Hp & _ & _ & _ & Htr).
  eexists. split; [exact Hstop|].
  split_and!; try done.
  - unfold snapshot. by rewrite Ha.
  - unfold snapshot, uptime. rewrite Ha.
    destruct (started_at r) as [t0|]; [|done]. by destruct (float_truthy t0).
  - intros r0 Hr0. by apply (ensure_present k s r0).
Qed.

Lemma stop_not_running_witness :
  ∃ d,
    stop "tts" whisper_up = (Return d, ensure "tts" whisper_up) ∧
    d !! "message" = Some (PStr "Not running") ∧
    d !! "running" = Some (PBool false) ∧
    d !! "uptime_seconds" = Some PNone ∧
    trace (ensure "tts" whisper_up) = trace whisper_up ∧
    tasks (ensure "tts" whisper_up) = tasks whisper_up ∧
    procs (ensure "tts" whisper_up) = procs whisper_up ∧
    (∀ r, _services whisper_up !! "tts" = Some r → ensure "tts" whisper_up = whisper_up).
Proof.
  apply (stop_not_running "tts" whisper_up whisper_up_reachable).
  - vm_compute. eauto.
  - vm_compute. reflexivity.
Defined.

(** X2. stop is idempotent: after a stop of a running service has returned,
    a second stop returns "Not running" and ends in the state it began in,
    so no second signal and no kill are sent. *)
Theorem stop_twice (k : string) (s : State) :
  reachable s →
  is_running s k = true →
  ∃ d1 s1 d2,
    stop k s = (Return d1, s1) ∧
    d1 !! "message" = Some (PStr "Stopped") ∧
    stop k s1 = (Return d2, s1) ∧
    d2 !! "message" = Some (PStr "Not running").
Proof.
  intros Hs Hrun.
  destruct (stop_when_running k s Hs Hrun)
    as (r & p & e & cfg & Hr & Hp & He & Hrc & Hstop).
  set (s1 := reader_cancelled r (quiesced p e s)) in *.
  destruct (reader_cancelled_frame r (quiesced p e s)) as (Hsv & Hpr & _).
  destruct (quiesced_frame p e s) as [Hq _].
  assert (_services s1 !! k = Some r) as Hr1 by (subst s1; by rewrite Hsv, Hq).
  assert (reachable s1) as Hs1 by (eapply reachable_step; [done|by eapply step_stop]).
  assert (is_running s1 k = false) as Hrun1.
  { rewrite (is_running_alive _ _ _ Hr1). unfold alive. rewrite Hp.
    apply bool_decide_eq_false. subst s1. unfold os_returncode. rewrite Hpr.
    destruct (quiesced_exited p e s He) as [c Hc].
    unfold os_returncode in Hc. by rewrite Hc. }
  destruct (reachable_Inv s Hs k r Hr) as [_ [cfg1 Hk] _ _].
  destruct (stop_idle k cfg1 s1 Hs1 Hk Hrun1) as (_ & Hstop2).
  rewrite (ensure_present k s1 r Hr1) in Hstop2.
  eexists _, s1, _. split; [exact Hstop|]. split; [done|].
  split; [exact Hstop2|]. done.
Qed.

Lemma stop_twice_witness :
  ∃ d1 s1 d2,
    stop "whisper" whisper_up = (Return d1, s1) ∧
    d1 !! "message" = Some (PStr "Stopped") ∧
    stop "whisper" s1 = (Return d2, s1) ∧
    d2 !! "message" = Some (PStr "Not running").
Proof.
  apply (stop_twice "whisper" whisper_up whisper_up_reachable).
  vm_compute. reflexivity.
Defined.

Lemma launchable_true s cfg :
  launchable s cfg = true →
  ∃ prog, fs s !! path_str (cfg_uvicorn cfg) = Some prog ∧ prog_launchable prog = true.
Proof.
  unfold launchable. destruct (fs s !! path_str (cfg_uvicorn cfg)) as [prog|]; [|done].
  intros Hl. by exists prog.
Qed.

Lemma start_launches k cfg s prog :
  reachable s →
  SERVICE_CONFIG !! k = Some cfg →
  is_running s k = false →
  fs s !! path_str (cfg_uvicorn cfg) = Some prog →
  prog_launchable prog = true →
  let r := default (ManagedService_init k) (_services s !! k) in
  let s3 := launched (launch_cmd cfg) (path_str (cfg_cwd cfg)) prog (cleared k s) in
  let proc := {| pid := next_pid s |} in
  start k s = (Return (<["message" := PStr "Started"]>
                         (snapshot (spawned k proc s3) (fresh_run r proc s3) (cfg_port cfg))),
               spawned k proc s3) ∧
  _services (spawned k proc s3) !! k = Some (fresh_run r proc s3) ∧
  name r = k ∧
  alive (spawned k proc s3) (fresh_run r proc s3) = true.
Proof.
  intros Hs Hk Hrun Hfs Hl r s3 proc.
  destruct (ensured_record k s Hs (ex_intro _ _ Hk)) as (Hr & Hn & Ha).
  fold r in Hr, Hn, Ha. rewrite Hrun in Ha.
  destruct (ensure_rest k s) as (Het & Hep & Hen & Hef & Heno & Hetr).
  assert (Popen_new (launch_cmd cfg) (path_str (cfg_cwd cfg)) (cleared k s)
          = (Return proc, s3)) as Hp.
  { unfold Popen_new. simpl. rewrite Hef, Hfs, Hl. subst proc s3.
    unfold launched. simpl. by rewrite Hen. }
  split; [exact (start_ok _ _ _ _ _ _ Hk Hr Hn Ha Hp)|].
  split.
  { apply (spawned_lookup k proc s3 (set_logs [] r)).
    destruct (os_only_Popen_new _ _ _ _ _ Hp) as [-> _]. by apply cleared_lookup. }
  split; [done|].
  unfold alive. simpl process. apply bool_decide_eq_true.
  rewrite <- (Popen_new_returned _ _ _ _ _ Hp). done.
Qed.


(** X3. start of a configured service that is not running, with its
    executable in place, spawns exactly one process, with the command line
    [uvicorn server:app --host 0.0.0.0 --port <port>] in the service's
    directory, and returns "Started" with running = true and the pid of
    that process.  The record then holds the new handle, an empty buffer,
    the spawn time and a new reader task that has not run yet. *)
Theorem start_spawns (k : string) (cfg : ServiceCfg) (s : State) :
  reachable s →
  SERVICE_CONFIG !! k = Some cfg →
  is_running s k = false →
  launchable s cfg = true →
  ∃ d s' r' entry,
    start k s = (Return d, s') ∧
    d !! "message" = Some (PStr "Started") ∧
    d !! "service" = Some (PStr k) ∧
    d !! "running" = Some (PBool true) ∧
    d !! "pid" = Some (PInt (next_pid s)) ∧
    d !! "port" = Some (PInt (cfg_port cfg)) ∧
    _services s' !! k = Some r' ∧
    process r' = Some {| pid := next_pid s |} ∧ logs r' = [] ∧
    started_at r' = Some (now s) ∧ _reader_task r' = Some (length (tasks s)) ∧
    tasks s' = tasks s ++ [{| t_svc := k; t_pc := NotStarted; t_must_cancel := false |}] ∧
    trace s' = trace s ++ [CallSpawn (next_pid s)
                             [path_str (cfg_uvicorn cfg); cfg_app cfg; "--host"; "0.0.0.0";
                              "--port"; pretty (cfg_port cfg)]
                             (path_str (cfg_cwd cfg))] ∧
    procs s' !! next_pid s = Some entry ∧ p_returncode entry = None ∧
    p_stdout entry = [] ∧
    is_running s' k = true.
Proof.
  intros Hs Hk Hrun Hl.
  destruct (launchable_true s cfg Hl) as (prog & Hfs & Hlp).
  destruct (start_launches k cfg s prog Hs Hk Hrun Hfs Hlp) as (Hstart & Hr' & Hn & Ha).
  destruct (ensure_rest k s) as (Het & Hep & Hen & Hef & Heno & Hetr).
  do 4 eexists. split; [exact Hstart|].
  split_and!; try done.
  - unfold snapshot. simpl. by rewrite Hn.
  - unfold snapshot. by rewrite Ha.
  - simpl. by rewrite Heno.
  - simpl. by rewrite Het.
  - simpl. by rewrite Het.
  - simpl. by rewrite Hetr, Hen.
  - simpl. rewrite Hen. apply lookup_insert_eq.
  - done.
  - done.
  - by rewrite (is_running_alive _ _ _ Hr').
Qed.

Lemma start_spawns_witness :
  ∃ d s' r' entry,
    start "tts" whisper_up = (Return d, s') ∧
    d !! "message" = Some (PStr "Started") ∧
    d !! "service" = Some (PStr "tts") ∧
    d !! "running" = Some (PBool true) ∧
    d !! "pid" = Some (PInt (next_pid whisper_up)) ∧
    d !! "port" = Some (PInt 8200) ∧
    _services s' !! "tts" = Some r' ∧
    process r' = Some {| pid := next_pid whisper_up |} ∧ logs r' = [] ∧
    started_at r' = Some (now whisper_up) ∧
    _reader_task r' = Some (length (tasks whisper_up)) ∧
    tasks s' = tasks whisper_up
               ++ [{| t_svc := "tts"; t_pc := NotStarted; t_must_cancel := false |}] ∧
    trace s' = trace whisper_up
               ++ [CallSpawn (next_pid whisper_up)
                     ["tts\venv\Scripts\uvicorn.exe"; "server:app"; "--host"; "0.0.0.0";
                      "--port"; "8200"] "tts"] ∧
    procs s' !! next_pid whisper_up = Some entry ∧ p_returncode entry = None ∧
    p_stdout entry = [] ∧
    is_running s' "tts" = true.
Proof.
  apply (start_spawns "tts"
           {| cfg_cwd := REPO_ROOT // "tts";
              cfg_uvicorn := REPO_ROOT // "tts" // "venv" // "Scripts" // "uvicorn.exe";
              cfg_app := "server:app"; cfg_port := 8200 |} whisper_up whisper_up_reachable).
  - vm_compute. reflexivity.
  - vm_compute. reflexivity.
  - vm_compute. reflexivity.
Defined.




Lemma py_slice_nil {A} (z : Z) : py_slice_from z (@nil A) = [].
Proof. unfold py_slice_from. destruct (z <? 0); apply drop_nil. Qed.

(** X5. The first query of a configured service that has no record yet
    creates the record as [ManagedService.__init__] builds it, and nothing
    else: status then reports running = false, no pid and no uptime, with
    the configured port, and view_logs reports an empty buffer. *)
Theorem first_query_creates_record (k : string) (cfg : ServiceCfg) (n : Z) (s : State) :
  SERVICE_CONFIG !! k = Some cfg →
  _services s !! k = None →
  let s' := with_services (insert k (ManagedService_init k)) s in
  ∃ d dl,
    status k s = (Return d, s') ∧ view_logs k n s = (Return dl, s') ∧
    d !! "service" = Some (PStr k) ∧ d !! "running" = Some (PBool false) ∧
    d !! "pid" = Some PNone ∧ d !! "port" = Some (PInt (cfg_port cfg)) ∧
    d !! "uptime_seconds" = Some PNone ∧
    dl !! "logs" = Some (PList []) ∧ dl !! "lines_returned" = Some (PInt 0) ∧
    status k s' = (Return d, s') ∧ view_logs k n s' = (Return dl, s').
Proof.
  intros Hk Hnone s'.
  assert (ensure k s = s') as Hens by (unfold ensure; by rewrite Hnone).
  assert (_services s' !! k = Some (ManagedService_init k)) as Hr'
    by (subst s'; simpl; apply lookup_insert_eq).
  assert (ensure k s' = s') as Hens' by by apply (ensure_present k s' _ Hr').
  assert (∀ s0, ensure k s0 = s' →
            status k s0 = (Return (snapshot s' (ManagedService_init k) (cfg_port cfg)), s'))
    as Hstatus.
  { intros s0 Hs0. unfold status.
    rewrite (bind_return _ _ _ _ _ (get_known k s0 (ex_intro _ _ Hk))), Hs0.
    by apply status_dict_eq. }
  pose proof (view_logs_known k n s (ex_intro _ _ Hk)) as Hv.
  pose proof (view_logs_known k n s' (ex_intro _ _ Hk)) as Hv'.
  rewrite Hnone, Hens in Hv. rewrite Hr', Hens' in Hv'. simpl in Hv, Hv'.
  rewrite py_slice_nil in Hv, Hv'.
  do 2 eexists. split; [by apply Hstatus|]. split; [exact Hv|].
  split_and!; try done. by apply Hstatus.
Qed.

Lemma first_query_creates_record_witness :
  ∃ d dl,
    status "tts" machine
      = (Return d, with_services (insert "tts" (ManagedService_init "tts")) machine) ∧
    view_logs "tts" 50 machine
      = (Return dl, with_services (insert "tts" (ManagedService_init "tts")) machine) ∧
    d !! "service" = Some (PStr "tts") ∧ d !! "running" = Some (PBool false) ∧
    d !! "pid" = Some PNone ∧ d !! "port" = Some (PInt 8200) ∧
    d !! "uptime_seconds" = Some PNone ∧
    dl !! "logs" = Some (PList []) ∧ dl !! "lines_returned" = Some (PInt 0) ∧
    status "tts" (with_services (insert "tts" (ManagedService_init "tts")) machine)
      = (Return d, with_services (insert "tts" (ManagedService_init "tts")) machine) ∧
    view_logs "tts" 50 (with_services (insert "tts" (ManagedService_init "tts")) machine)
      = (Return dl, with_services (insert "tts" (ManagedService_init "tts")) machine).
Proof.
  apply (first_query_creates_record "tts"
           {| cfg_cwd := REPO_ROOT // "tts";
              cfg_uvicorn := REPO_ROOT // "tts" // "venv" // "Scripts" // "uvicorn.exe";
              cfg_app := "server:app"; cfg_port := 8200 |} 50 machine).
  - vm_compute. reflexivity.
  - vm_compute. reflexivity.
Defined.

(** X6. Liveness is read from the operating system at each call: once the
    process of a running service has exited by itself, status reports
    running = false and no uptime, still with the pid of the handle the
    record keeps, and leaves the state as it is. *)
Theorem status_sees_exit (k : string) (s : State) :
  reachable s →
  is_running s k = true →
  ∃ r p d,
    _services s !! k = Some r ∧ process r = Some p ∧
    status k (os_exit (pid p) s) = (Return d, os_exit (pid p) s) ∧
    d !! "running" = Some (PBool false) ∧
    d !! "pid" = Some (PInt (pid p)) ∧
    d !! "uptime_seconds" = Some PNone ∧
    is_running (os_exit (pid p) s) k = false.
Proof.
  intros Hs Hrun.
  destruct (proj1 (is_running_spec s k) Hrun) as (r & p & e & Hr & Hp & He & Hrc).
  set (s1 := os_exit (pid p) s).
  assert (reachable s1) as Hs1 by (eapply reachable_step; [done|apply step_exit]).
  assert (_services s1 !! k = Some r) as Hr1 by done.
  assert (alive s1 r = false) as Ha.
  { unfold alive, os_returncode. rewrite Hp. subst s1. simpl.
    rewrite lookup_alter_eq, He. simpl. by rewrite Hrc. }
  destruct (status_present k s1 r Hs1 Hr1) as (cfg & Hk & Hst).
  exists r, p. eexists. fold s1. split_and!; try done.
  - unfold snapshot. by rewrite Ha.
  - unfold snapshot. by rewrite Hp.
  - unfold snapshot, uptime. rewrite Ha.
    destruct (started_at r) as [t0|]; [|done]. by destruct (float_truthy t0).
  - by rewrite (is_running_alive _ _ _ Hr1).
Qed.

Lemma status_sees_exit_witness :
  ∃ r p d,
    _services whisper_up !! "whisper" = Some r ∧ process r = Some p ∧
    status "whisper" (os_exit (pid p) whisper_up) = (Return d, os_exit (pid p) whisper_up) ∧
    d !! "running" = Some (PBool false) ∧
    d !! "pid" = Some (PInt (pid p)) ∧
    d !! "uptime_seconds" = Some PNone ∧
    is_running (os_exit (pid p) whisper_up) "whisper" = false.
Proof.
  apply (status_sees_exit "whisper" whisper_up whisper_up_reachable).
  vm_compute. reflexivity.
Defined.

(** ** restart *)

Lemma quiesced_rest p e s :
  fs (quiesced p e s) = fs s ∧ next_pid (quiesced p e s) = next_pid s.
Proof. unfold quiesced. by repeat case_match. Qed.

Lemma reader_cancelled_rest r s :
  fs (reader_cancelled r s) = fs s ∧ next_pid (reader_cancelled r s) = next_pid s.
Proof. unfold reader_cancelled. by repeat case_match. Qed.

(** What [restart] finds once its [stop] has returned. *)
Lemma restart_after_stop k s :
  reachable s →
  is_running s k = true →
  ∃ r p e d1 s1,
    _services s !! k = Some r ∧ process r = Some p ∧ procs s !! pid p = Some e ∧
    stop k s = (Return d1, s1) ∧ restart k s = start k s1 ∧
    reachable s1 ∧ is_running s1 k = false ∧
    _services s1 = _services s ∧ fs s1 = fs s ∧ next_pid s1 = next_pid s ∧
    length (tasks s1) = length (tasks s) ∧
    trace s1 = trace s
               ++ [CallSendSignal (pid p) CTRL_BREAK_EVENT; CallWaitFor (pid p) 10]
               ++ (if exits_within 10 e then []
                   else [CallKill (pid p); CallWait (pid p)]).
Proof.
  intros Hs Hrun.
  destruct (stop_when_running k s Hs Hrun)
    as (r & p & e & cfg & Hr & Hp & He & Hrc & Hstop).
  set (s1 := reader_cancelled r (quiesced p e s)) in *.
  destruct (reader_cancelled_frame r (quiesced p e s)) as (Hsv & Hpr & Htr).
  destruct (reader_cancelled_rest r (quiesced p e s)) as (Hfs & Hnp).
  destruct (quiesced_frame p e s) as [Hq Hqt].
  destruct (quiesced_rest p e s) as [Hqf Hqn].
  assert (_services s1 = _services s) as Hsame by (subst s1; by rewrite Hsv, Hq).
  assert (_services s1 !! k = Some r) as Hr1 by by rewrite Hsame.
  exists r, p, e. eexists _, s1. split_and!; try done.
  - unfold restart. by rewrite (bind_return _ _ _ _ _ Hstop).
  - eapply reachable_step; [done|by eapply step_stop].
  - rewrite (is_running_alive _ _ _ Hr1). unfold alive. rewrite Hp.
    apply bool_decide_eq_false. subst s1. unfold os_returncode. rewrite Hpr.
    destruct (quiesced_exited p e s He) as [c Hc].
    unfold os_returncode in Hc. by rewrite Hc.
  - subst s1. by rewrite Hfs, Hqf.
  - subst s1. by rewrite Hnp, Hqn.
  - subst s1. by rewrite reader_cancelled_length, Hqt.
  - subst s1. rewrite Htr. apply quiesced_trace.
Qed.

Lemma launchable_ext s s' cfg : fs s' = fs s → launchable s' cfg = launchable s cfg.
Proof. intros Hfs. unfold launchable. by rewrite Hfs. Qed.

(** X7. restart of a running service whose executable is in place first
    takes the old process down as stop does and then spawns: it returns
    "Started" (never "Already running") with the pid of the new process,
    and the calls it makes are those of stop followed by exactly one
    spawn. *)
Theorem restart_running (k : string) (cfg : ServiceCfg) (s : State) :
  reachable s →
  SERVICE_CONFIG !! k = Some cfg →
  is_running s k = true →
  launchable s cfg = true →
  ∃ r p e d s',
    _services s !! k = Some r ∧ process r = Some p ∧ procs s !! pid p = Some e ∧
    restart k s = (Return d, s') ∧
    d !! "message" = Some (PStr "Started") ∧
    d !! "running" = Some (PBool true) ∧
    d !! "pid" = Some (PInt (next_pid s)) ∧
    is_running s' k = true ∧
    trace s' = trace s
               ++ [CallSendSignal (pid p) CTRL_BREAK_EVENT; CallWaitFor (pid p) 10]
               ++ (if exits_within 10 e then []
                   else [CallKill (pid p); CallWait (pid p)])
               ++ [CallSpawn (next_pid s) (launch_cmd cfg) (path_str (cfg_cwd cfg))].
Proof.
  intros Hs Hk Hrun Hl.
  destruct (restart_after_stop k s Hs Hrun)
    as (r & p & e & d1 & s1 & Hr & Hp & He & _ & Hre & Hs1 & Hrun1 & Hsv & Hfs & Hnp & _ & Htr).
  rewrite <- (launchable_ext s s1 cfg Hfs) in Hl.
  destruct (launchable_true s1 cfg Hl) as (prog & Hfs1 & Hlp).
  destruct (start_launches k cfg s1 prog Hs1 Hk Hrun1 Hfs1 Hlp) as (Hstart & Hr' & Hn & Ha).
  destruct (ensure_rest k s1) as (_ & _ & Hen & _ & _ & Hetr).
  exists r, p, e. do 2 eexists. rewrite Hre.
  split_and!; try done.
  - unfold snapshot. by rewrite Ha.
  - unfold snapshot. simpl. by rewrite Hnp.
  - by rewrite (is_running_alive _ _ _ Hr').
  - simpl. rewrite Hetr, Hen, Htr, Hnp. by rewrite <- !app_assoc.
Qed.

Lemma restart_running_witness :
  ∃ r p e d s',
    _services whisper_up !! "whisper" = Some r ∧ process r = Some p ∧
    procs whisper_up !! pid p = Some e ∧
    restart "whisper" whisper_up = (Return d, s') ∧
    d !! "message" = Some (PStr "Started") ∧
    d !! "running" = Some (PBool true) ∧
    d !! "pid" = Some (PInt (next_pid whisper_up)) ∧
    is_running s' "whisper" = true ∧
    trace s' = trace whisper_up
               ++ [CallSendSignal (pid p) CTRL_BREAK_EVENT; CallWaitFor (pid p) 10]
               ++ (if exits_within 10 e then []
                   else [CallKill (pid p); CallWait (pid p)])
               ++ [CallSpawn (next_pid whisper_up)
                     ["whisper\venv\Scripts\uvicorn.exe"; "server:app"; "--host";
                      "0.0.0.0"; "--port"; "8100"] "whisper"].
Proof.
  apply (restart_running "whisper"
           {| cfg_cwd := REPO_ROOT // "whisper";
              cfg_uvicorn := REPO_ROOT // "whisper" // "venv" // "Scripts" // "uvicorn.exe";
              cfg_app := "server:app"; cfg_port := 8100 |} whisper_up whisper_up_reachable).
  - vm_compute. reflexivity.
  - vm_compute. reflexivity.
  - vm_compute. reflexivity.
Defined.

(** X8. restart of a service that is not running is start: same result,
    same final state, and no signal is sent. *)
Theorem restart_not_running (k : string) (s : State) :
  reachable s →
  is_Some (SERVICE_CONFIG !! k) →
  is_running s k = false →
  restart k s = start k s.
Proof.
  intros Hs Hk Hrun. pose proof Hk as [cfg Hcfg].
  destruct (stop_idle k cfg s Hs Hcfg Hrun) as (_ & Hstop).
  unfold restart. rewrite (bind_return _ _ _ _ _ Hstop).
  unfold start.
  rewrite !(bind_return _ _ _ _ _ (get_known k _ Hk)).
  f_equal. unfold ensure at 1. by rewrite ensure_lookup.
Qed.

Lemma restart_not_running_witness :
  restart "tts" whisper_up = start "tts" whisper_up.
Proof.
  apply (restart_not_running "tts" whisper_up whisper_up_reachable).
  - vm_compute. eauto.
  - vm_compute. reflexivity.
Defined.

(** ** Services do not interfere *)

Lemma os_only_keeps {A} j v (m : M A) : os_only m → preserves (record_is j v) m.
Proof.
  intros Hm s o s' HP Hms. destruct (Hm _ _ _ Hms) as [Hs _].
  unfold record_is in *. by rewrite Hs.
Qed.

Lemma keeps_get k j v : k ≠ j → preserves (record_is j v) (_get k).
Proof.
  intros Hne s o s' HP. unfold _get, record_is in *.
  repeat case_match; intros [= _ <-]; try done.
  simpl. by rewrite lookup_insert_ne.
Qed.

Lemma keeps_update_svc k j v f : k ≠ j → preserves (record_is j v) (update_svc k f).
Proof.
  intros Hne. apply preserves_modify. intros s HP.
  unfold record_is in *. simpl. by rewrite lookup_alter_ne.
Qed.

Lemma keeps_cancel j v t : preserves (record_is j v) (cancel t).
Proof. by apply preserves_modify. Qed.

Lemma keeps_create_task j v k : preserves (record_is j v) (create_task k).
Proof. by intros s o s' HP [= _ <-]. Qed.

(** [_get k] hands out the key itself. *)
Lemma preserves_bind_get {B} P k (f : string → M B) :
  preserves P (_get k) → preserves P (f k) → preserves P (_get k ≫= f).
Proof.
  intros Hg Hf s o s' HP. rewrite bind_eq.
  destruct (_get k s) as [[a|e|] s1] eqn:Hgs.
  - assert (a = k) as ->.
    { revert Hgs. unfold _get. repeat case_match; by intros [= <- _]. }
    intros Hfs. eapply Hf; [|exact Hfs]. eapply Hg; eauto.
  - intros [= <- <-]. eapply Hg; eauto.
  - intros [= <- <-]. eapply Hg; eauto.
Qed.

Ltac keeps_tac :=
  repeat first
    [ apply preserves_bind_get; [apply keeps_get; assumption|]
    | apply preserves_ret | apply preserves_raise | apply preserves_gets
    | apply keeps_get; assumption | apply keeps_update_svc; assumption
    | apply keeps_cancel | apply keeps_create_task
    | apply readonly_preserves;
        first [ apply readonly_running | apply readonly_status_dict
              | apply readonly_svc_of | apply readonly_done
              | apply readonly_config ]
    | apply os_only_keeps;
        first [ apply os_only_send_signal | apply os_only_wait_for_wait
              | apply os_only_kill | apply os_only_wait | apply os_only_Popen_new ]
    | apply preserves_try_except
    | apply preserves_bind; [|intros ?]
    | match goal with
      | |- preserves _ (match ?x with _ => _ end) => destruct x
      end ].

Lemma keeps_start k j v : k ≠ j → preserves (record_is j v) (start k).
Proof. intros Hne. unfold start, time_time. keeps_tac. Qed.

Lemma keeps_stop k j v : k ≠ j → preserves (record_is j v) (stop k).
Proof. intros Hne. unfold stop. keeps_tac. Qed.

Lemma keeps_status k j v : k ≠ j → preserves (record_is j v) (status k).
Proof. intros Hne. unfold status. keeps_tac. Qed.

Lemma keeps_view_logs k n j v : k ≠ j → preserves (record_is j v) (view_logs k n).
Proof. intros Hne. unfold view_logs. keeps_tac. Qed.

(** X9. An operation on one service leaves the records of the others
    alone.  However start, status or view_logs on [k] ends (return or
    exception), the registry entry of every other name [j] is what it was:
    present with the same handle, buffer, start time and task, or still
    absent.  stop and restart on [k], which wait for the process, leave of
    every other entry all but the buffer as it was: whether it is present,
    its handle, its start time and its reader task. *)
Theorem other_records_untouched (k j : string) (n : Z) (s s' : State)
    (o : outcome (gmap string pyval)) :
  k ≠ j →
  (start k s = (o, s') ∨ status k s = (o, s') ∨ view_logs k n s = (o, s') →
   _services s' !! j = _services s !! j) ∧
  (stop k s = (o, s') ∨ restart k s = (o, s') →
   sans_logs (_services s' !! j) = sans_logs (_services s !! j)).
Proof.
  intros Hne. split.
  - intros [Hrun|[Hrun|Hrun]].
    + by apply (keeps_start k j _ Hne s o s').
    + by apply (keeps_status k j _ Hne s o s').
    + by apply (keeps_view_logs k n j _ Hne s o s').
  - intros [Hrun|Hrun]; f_equal.
    + by apply (keeps_stop k j _ Hne s o s').
    + unfold restart in Hrun.
      refine (preserves_bind (record_is j _) (stop k) (λ _, start k) _ _ s o s' _ Hrun).
      * by apply keeps_stop.
      * intros _. by apply keeps_start.
      * done.
Qed.

Lemma other_records_untouched_witness :
  _services (snd (start "tts" whisper_talking)) !! "whisper"
  = _services whisper_talking !! "whisper" ∧
  sans_logs (_services (snd (stop "tts" (run (start "tts") whisper_talking))) !! "whisper")
  = sans_logs (_services (run (start "tts") whisper_talking) !! "whisper").
Proof.
  split.
  - apply (other_records_untouched "tts" "whisper" 50 whisper_talking _
             (fst (start "tts" whisper_talking))); [discriminate|].
    left. by destruct (start "tts" whisper_talking).
  - apply (other_records_untouched "tts" "whisper" 50
             (run (start "tts") whisper_talking) _
             (fst (stop "tts" (run (start "tts") whisper_talking)))); [discriminate|].
    left. by destruct (stop "tts" (run (start "tts") whisper_talking)).
Defined.

(** ** What the reader stores *)

Lemma rstrip_nl_spec s :
  ∃ n, s = rstrip_nl s +:+ newlines n ∧ ends_with_LF (rstrip_nl s) = false.
Proof.
  induction s as [|c rest (n & Hrest & Hend)]; [by exists 0%nat|].
  simpl. destruct (rstrip_nl rest) as [|c' r'] eqn:Hstrip.
  - simpl in Hrest. destruct (Ascii.eqb c LF) eqn:Hc.
    + apply Ascii.eqb_eq in Hc as ->. exists (S n). simpl. by rewrite Hrest.
    + exists n. simpl. by rewrite Hc, Hrest.
  - exists n. split; [|done]. rewrite Hrest at 1. reflexivity.
Qed.

Lemma rstrip_nl_cons c rest :
  rstrip_nl (String c rest)
  = match rstrip_nl rest with
    | EmptyString => if Ascii.eqb c LF then EmptyString else String c EmptyString
    | r => String c r
    end.
Proof. reflexivity. Qed.

Lemma rstrip_nl_idem s : rstrip_nl (rstrip_nl s) = rstrip_nl s.
Proof.
  induction s as [|c rest IH]; [done|].
  rewrite rstrip_nl_cons. destruct (rstrip_nl rest) as [|c' r'] eqn:Hstrip.
  - destruct (Ascii.eqb c LF) eqn:Hc; [done|].
    rewrite rstrip_nl_cons. simpl. by rewrite Hc.
  - rewrite rstrip_nl_cons, IH. done.
Qed.

Lemma deque_append_last {A} (maxlen : nat) (d : list A) x :
  (0 < maxlen)%nat → last (deque_append maxlen d x) = Some x.
Proof.
  intros Hpos. unfold deque_append. rewrite length_app. simpl length.
  destruct (Nat.ltb_spec maxlen (length d + 1)).
  - destruct d as [|y d]; simpl in *; [lia|]. apply last_snoc.
  - apply last_snoc.
Qed.

(** X10. A turn of the log reader on a line that is not empty stores, as
    the newest entry of the buffer, the line with all its trailing line
    feeds removed and nothing else changed: the line read is the stored
    text followed by line feeds only, the stored text does not end in a
    line feed, and a line of line feeds alone is stored as the empty
    string. *)
Theorem reader_stores_stripped_line (line : string) (buffer : list string) :
  line ≠ "" →
  ∃ buffer' stored n,
    log_reader_turn line buffer = Some buffer' ∧
    last buffer' = Some stored ∧
    line = stored +:+ newlines n ∧
    ends_with_LF stored = false ∧
    rstrip_nl stored = stored.
Proof.
  intros Hline. unfold log_reader_turn.
  destruct (decide (line = "")) as [?|_]; [done|].
  destruct (rstrip_nl_spec line) as (n & Hsplit & Hend).
  eexists _, (rstrip_nl line), n. split; [done|].
  split; [apply deque_append_last; rewrite capacity_500; lia|].
  split; [done|]. split; [done|].
  apply rstrip_nl_idem.
Qed.

Lemma reader_stores_stripped_line_witness :
  ∃ buffer' stored n,
    log_reader_turn ("ok" +:+ newlines 2) ["a"]
      = Some buffer' ∧
    last buffer' = Some stored ∧
    "ok" +:+ newlines 2 = stored +:+ newlines n ∧
    ends_with_LF stored = false ∧
    rstrip_nl stored = stored.
Proof.
  apply (reader_stores_stripped_line ("ok" +:+ newlines 2)).
  discriminate.
Defined.

(** ** From the pipe to view_logs *)

(** X11. Round trip of the log lines: when the reader of service [k] is
    reading and the pipe holds [stream], then after the reader has been
    scheduled once per line, view_logs returns the newest lines of
    old buffer ++ stripped stream, in the order produced.  With an empty
    buffer, at most 500 lines and a request for at least that many, it
    returns every line of the stream, stripped, and nothing else. *)
Theorem logs_round_trip (k : string) (n : Z) (s : State) (t : nat) (task : Task)
    (r : ManagedService) (e : OsProcess) (proc : Popen) (stream : list string) :
  is_Some (SERVICE_CONFIG !! k) →
  tasks s !! t = Some task →
  t_pc task = Reading proc →
  t_must_cancel task = false →
  t_svc task = k →
  _services s !! k = Some r →
  (length (logs r) ≤ 500)%nat →
  procs s !! pid proc = Some e →
  p_stdout e = stream →
  Forall (λ line, line ≠ "") stream →
  let s' := Nat.iter (length stream) (task_step t) s in
  let c := Z.max 1 (Z.min n 500) in
  ∃ d,
    view_logs k n s' = (Return d, s') ∧
    d !! "logs" = Some (PList (lastn (Z.to_nat c)
                                 (lastn 500 (logs r ++ (rstrip_nl <$> stream))))) ∧
    (logs r = [] → (length stream ≤ 500)%nat → Z.of_nat (length stream) ≤ n →
     d !! "logs" = Some (PList (rstrip_nl <$> stream)) ∧
     d !! "lines_returned" = Some (PInt (Z.of_nat (length stream)))).
Proof.
  intros Hk Ht Hpc Hc Hsvc Hr Hlen He Hout Hne s' c.
  pose proof (reader_task_drains stream s t task k r e proc Ht Hpc Hc Hsvc Hr He Hout Hne)
    as Hdrain.
  fold s' in Hdrain.
  destruct (_services s' !! k) as [r'|] eqn:Hr'; [|done].
  simpl in Hdrain. injection Hdrain as Hlogs.
  rewrite log_reader_lastn in Hlogs by (by rewrite capacity_500 || done).
  rewrite capacity_500 in Hlogs.
  pose proof (view_logs_known k n s' Hk) as Hv.
  rewrite Hr', (ensure_present k s' r' Hr') in Hv. simpl in Hv.
  change (Z.max 1 (Z.min n LOG_BUFFER_SIZE)) with c in Hv.
  rewrite py_slice_last, Hlogs in Hv by lia.
  eexists. split; [exact Hv|]. split; [done|].
  intros Hempty Hcap Hn. rewrite Hempty. simpl.
  rewrite (lastn_all 500) by by rewrite length_fmap.
  rewrite lastn_all by (rewrite length_fmap; lia).
  split; [done|]. simpl. by rewrite length_fmap.
Qed.

Lemma logs_round_trip_witness :
  ∃ d,
    view_logs "whisper" 50 (Nat.iter 2 (task_step 0) whisper_talking)
      = (Return d, Nat.iter 2 (task_step 0) whisper_talking) ∧
    d !! "logs" = Some (PList (lastn (Z.to_nat 50)
                                 (lastn 500 ([] ++ ["loading"; "ready"])))) ∧
    ([] = @nil string → (2 ≤ 500)%nat → 2 ≤ 50 →
     d !! "logs" = Some (PList ["loading"; "ready"]) ∧
     d !! "lines_returned" = Some (PInt 2)).
Proof.
  refine (logs_round_trip "whisper" 50 whisper_talking 0
            {| t_svc := "whisper"; t_pc := Reading {| pid := 4000 |};
               t_must_cancel := false |}
            whisper_record
            {| p_cmd := ["whisper\venv\Scripts\uvicorn.exe"; "server:app"; "--host";
                         "0.0.0.0"; "--port"; "8100"];
               p_cwd := "whisper"; p_program := well_behaved;
               p_returncode := None;
               p_stdout := ["loading" +:+ newlines 1; "ready" +:+ newlines 1] |}
            {| pid := 4000 |}
            ["loading" +:+ newlines 1; "ready" +:+ newlines 1]
            _ _ _ _ _ _ _ _ _ _).
  - vm_compute. eauto.
  - vm_compute. reflexivity.
  - reflexivity.
  - reflexivity.
  - reflexivity.
  - vm_compute. reflexivity.
  - simpl. lia.
  - vm_compute. reflexivity.
  - reflexivity.
  - repeat constructor; discriminate.
Defined.

(** ** Process identifiers *)

Lemma pid_ok_frame s s' :
  procs s' = procs s → next_pid s' = next_pid s → pid_ok s → pid_ok s'.
Proof. intros Hp Hn HP q e. rewrite Hp, Hn. apply HP. Qed.

Lemma pid_ok_alter f q s : pid_ok s → pid_ok (with_procs (alter f q) s).
Proof.
  intros HP q' e. simpl. intros Hq.
  apply lookup_alter_Some in Hq as [(_ & x & Hx & _)|[_ Hx]]; by eapply HP.
Qed.

Lemma pid_ok_os_exit_after q d s : pid_ok s → pid_ok (os_exit_after q d s).
Proof.
  intros HP q' e. unfold os_exit_after. simpl. intros Hq.
  apply lookup_alter_Some in Hq as [(_ & x & Hx & _)|[_ Hx]]; by eapply HP.
Qed.

Ltac pid_ok_tac HP :=
  first
    [ exact HP
    | (eapply pid_ok_frame; [| |exact HP]; done)
    | (eapply pid_ok_frame; [| |apply pid_ok_alter, HP]; done)
    | (eapply pid_ok_frame; [| |apply pid_ok_os_exit_after; eapply pid_ok_frame; [| |exact HP]]; done) ].

Lemma pid_ok_send_signal proc sig : preserves pid_ok (send_signal proc sig).
Proof.
  intros s o s' HP. unfold send_signal.
  repeat case_match; intros [= _ <-]; pid_ok_tac HP.
Qed.

Lemma pid_ok_wait_for_wait proc timeout : preserves pid_ok (wait_for_wait proc timeout).
Proof.
  intros s o s' HP. unfold wait_for_wait.
  repeat case_match; intros [= _ <-]; pid_ok_tac HP.
Qed.

Lemma pid_ok_kill proc : preserves pid_ok (kill proc).
Proof.
  intros s o s' HP. unfold kill.
  repeat case_match; intros [= _ <-]; pid_ok_tac HP.
Qed.

Lemma pid_ok_wait proc : preserves pid_ok (wait proc).
Proof.
  intros s o s' HP. unfold wait.
  repeat case_match; intros [= _ <-]; pid_ok_tac HP.
Qed.

Lemma pid_ok_Popen_new cmd cwd : preserves pid_ok (Popen_new cmd cwd).
Proof.
  intros s o s' HP. unfold Popen_new.
  repeat case_match; intros [= _ <-]; try done.
  intros q e. simpl. rewrite lookup_insert. case_decide as Hq.
  - intros _. lia.
  - intros Hl. specialize (HP q e Hl). lia.
Qed.

Lemma pid_ok_get k : preserves pid_ok (_get k).
Proof.
  intros s o s' HP. unfold _get. repeat case_match; intros [= _ <-]; pid_ok_tac HP.
Qed.

Lemma pid_ok_modify_registry f : preserves pid_ok (modify (with_services f)).
Proof. apply preserves_modify. intros s HP. pid_ok_tac HP. Qed.

Lemma pid_ok_modify_tasks f : preserves pid_ok (modify (with_tasks f)).
Proof. apply preserves_modify. intros s HP. pid_ok_tac HP. Qed.

Lemma pid_ok_create_task k : preserves pid_ok (create_task k).
Proof. intros s o s' HP [= _ <-]. pid_ok_tac HP. Qed.

Ltac pid_preserves_tac :=
  repeat first
    [ apply preserves_ret | apply preserves_raise | apply preserves_gets
    | apply pid_ok_get | apply pid_ok_modify_registry | apply pid_ok_modify_tasks
    | apply pid_ok_create_task
    | apply pid_ok_send_signal | apply pid_ok_wait_for_wait | apply pid_ok_kill
    | apply pid_ok_wait | apply pid_ok_Popen_new
    | apply readonly_preserves;
        first [ apply readonly_running | apply readonly_status_dict
              | apply readonly_svc_of | apply readonly_done
              | apply readonly_config ]
    | apply preserves_try_except
    | apply preserves_bind; [|intros ?]
    | match goal with
      | |- preserves _ (match ?x with _ => _ end) => destruct x
      end ].

Lemma pid_ok_start k : preserves pid_ok (start k).
Proof. unfold start, time_time, update_svc. pid_preserves_tac. Qed.

Lemma pid_ok_stop k : preserves pid_ok (stop k).
Proof. unfold stop, cancel. pid_preserves_tac. Qed.

Lemma pid_ok_task_step t s : pid_ok s → pid_ok (task_step t s).
Proof.
  intros HP. unfold task_step.
  repeat case_match; try pid_ok_tac HP;
    (eapply pid_ok_frame; [| |apply (pid_ok_alter _ _ s), HP]; done).
Qed.

Lemma reachable_pid_ok s : reachable s → pid_ok s.
Proof.
  induction 1 as [files first_pid clock|s s' _ IH Hstep].
  { intros q e. simpl. by rewrite lookup_empty. }
  destruct Hstep as
    [k s o s' H|k s o s' H|k s o s' H|k s o s' H|k n s o s' H|t s|p line s _|p s|d s].
  - exact (pid_ok_start k _ _ _ IH H).
  - exact (pid_ok_stop k _ _ _ IH H).
  - unfold restart in H.
    refine (preserves_bind pid_ok (stop k) (λ _, start k) _ _ s o s' IH H).
    + apply pid_ok_stop.
    + intros _. apply pid_ok_start.
  - revert H. unfold status. intros H.
    refine (preserves_bind pid_ok _ _ _ _ s o s' IH H);
      [apply pid_ok_get|intros ?; apply readonly_preserves, readonly_status_dict].
  - revert H. unfold view_logs. intros H.
    refine (preserves_bind pid_ok _ _ _ _ s o s' IH H); [apply pid_ok_get|].
    intros ?. pid_preserves_tac.
  - by apply pid_ok_task_step.
  - by apply pid_ok_alter.
  - by apply pid_ok_alter.
  - by apply (pid_ok_frame s).
Qed.

Lemma quiesced_entry p e s :
  procs s !! pid p = Some e →
  ∃ e1, procs (quiesced p e s) !! pid p = Some e1 ∧ is_Some (p_returncode e1).
Proof.
  intros He. unfold quiesced.
  destruct (prog_shutdown (p_program e)) as [d|]; [destruct (Qle_bool 10 d)|];
    simpl; rewrite lookup_alter_eq, He; simpl; eauto.
Qed.

(** X12. With pids handed out in increasing order, as the process table of
    the model does, restart of a running service reports a pid different
    from the one the service had, and the old process is still in the
    table, exited: the new process has not taken its place. *)
Theorem restart_new_pid (k : string) (cfg : ServiceCfg) (s : State) :
  reachable s →
  SERVICE_CONFIG !! k = Some cfg →
  is_running s k = true →
  launchable s cfg = true →
  ∃ r p d s' old new,
    _services s !! k = Some r ∧ process r = Some p ∧
    restart k s = (Return d, s') ∧
    d !! "pid" = Some (PInt new) ∧ new ≠ pid p ∧
    (∃ r', _services s' !! k = Some r' ∧ process r' = Some {| pid := new |}) ∧
    procs s' !! pid p = Some old ∧ is_Some (p_returncode old).
Proof.
  intros Hs Hk Hrun Hl.
  destruct (stop_when_running k s Hs Hrun)
    as (r & p & e & cfg0 & Hr & Hp & He & Hrc & Hstop).
  destruct (restart_after_stop k s Hs Hrun)
    as (r0 & p0 & e0 & d1 & s1 & Hr0 & Hp0 & He0 & Hstop0 & Hre & Hs1 & Hrun1
        & Hsv & Hfs & Hnp & _ & _).
  assert (r0 = r) as -> by congruence. assert (p0 = p) as -> by congruence.
  assert (s1 = reader_cancelled r (quiesced p e s)) as Hs1eq by congruence.
  pose proof (reachable_pid_ok s Hs (pid p) e He) as Hlt.
  destruct (quiesced_entry p e s He) as (old & Hold & Hexit).
  destruct (reader_cancelled_frame r (quiesced p e s)) as (_ & Hpr & _).
  rewrite <- (launchable_ext s s1 cfg Hfs) in Hl.
  destruct (launchable_true s1 cfg Hl) as (prog & Hfs1 & Hlp).
  destruct (start_launches k cfg s1 prog Hs1 Hk Hrun1 Hfs1 Hlp) as (Hstart & Hr' & Hn & Ha).
  destruct (ensure_rest k s1) as (_ & Hep & Hen & _).
  exists r, p. eexists _, _, old, (next_pid s). rewrite Hre.
  split_and!; try done.
  - unfold snapshot. simpl. by rewrite Hnp.
  - lia.
  - eexists. split; [exact Hr'|]. simpl. by rewrite Hnp.
  - simpl. rewrite Hen, lookup_insert_ne by lia.
    rewrite Hep, Hs1eq, Hpr. exact Hold.
Qed.

Lemma restart_new_pid_witness :
  ∃ r p d s' old new,
    _services whisper_up !! "whisper" = Some r ∧ process r = Some p ∧
    restart "whisper" whisper_up = (Return d, s') ∧
    d !! "pid" = Some (PInt new) ∧ new ≠ pid p ∧
    (∃ r', _services s' !! "whisper" = Some r' ∧ process r' = Some {| pid := new |}) ∧
    procs s' !! pid p = Some old ∧ is_Some (p_returncode old).
Proof.
  apply (restart_new_pid "whisper"
           {| cfg_cwd := REPO_ROOT // "whisper";
              cfg_uvicorn := REPO_ROOT // "whisper" // "venv" // "Scripts" // "uvicorn.exe";
              cfg_app := "server:app"; cfg_port := 8100 |} whisper_up whisper_up_reachable).
  - vm_compute. reflexivity.
  - vm_compute. reflexivity.
  - vm_compute. reflexivity.
Defined.

(** ** A cancelled reader *)





(** Left alone, the same reader would have moved both lines of the pipe
    into the buffer. *)
Example reader_not_cancelled :
  logs <$> (_services (Nat.iter 3 (task_step 0) whisper_talking) !! "whisper")
  = Some ["loading"; "ready"].
Proof. vm_compute. reflexivity. Qed.

(** ** The proxy and the tools *)

Lemma SERVICE_NAMES_keys : list_to_set SERVICE_NAMES = dom SERVICE_CONFIG.
Proof. vm_compute. reflexivity. Qed.

Lemma status_known k cfg s :
  reachable s →
  SERVICE_CONFIG !! k = Some cfg →
  let r := default (ManagedService_init k) (_services s !! k) in
  status k s = (Return (snapshot (ensure k s) r (cfg_port cfg)), ensure k s).
Proof.
  intros Hs Hk r.
  destruct (ensured_record k s Hs (ex_intro _ _ Hk)) as (Hr & Hn & _).
  fold r in Hr, Hn. unfold status.
  rewrite (bind_return _ _ _ _ _ (get_known k s (ex_intro _ _ Hk))).
  rewrite <- Hn in Hk. by apply status_dict_eq.
Qed.

Lemma SERVICE_URLS_from_config :
  SERVICE_URLS
  = (λ cfg, "http://localhost:" +:+ pretty (cfg_port cfg)) <$> SERVICE_CONFIG.
Proof. vm_compute. reflexivity. Qed.

(** X13. The proxy and the process manager agree: they know the same
    service names, and the health check of a configured service is the
    request to http://localhost:<port>/health for the very port that start
    passes to uvicorn after --port. *)
Theorem proxy_agrees_with_manager {JSON} (http_get : string → proxy_exn + JSON)
    (k : string) :
  match SERVICE_CONFIG !! k with
  | Some cfg =>
      launch_cmd cfg !! 4%nat = Some "--port" ∧
      launch_cmd cfg !! 5%nat = Some (pretty (cfg_port cfg)) ∧
      health http_get k
      = http_get ("http://localhost:" +:+ pretty (cfg_port cfg) +:+ "/health")
  | None => health http_get k = inl (UnknownService k)
  end.
Proof.
  unfold health, _url. rewrite SERVICE_URLS_from_config, lookup_fmap.
  destruct (SERVICE_CONFIG !! k) as [cfg|]; simpl; [|done].
  split; [done|]. split; [done|]. reflexivity.
Qed.

(** X14. An unknown service name is an error for service_status, which
    raises ValueError and leaves the state alone, but not for
    service_health: whatever the network does, it returns the report
    "unreachable" carrying the unknown-service error, and sends no request. *)
Theorem unknown_service_health_vs_status {JSON} (k : string) :
  SERVICE_CONFIG !! k = None →
  (∀ (http_get : string → proxy_exn + JSON),
     service_health http_get k = inr (Unreachable (UnknownService k))) ∧
  (∀ s, service_status k s = (Raise (ValueError k), s)).
Proof.
  intros Hk. split.
  - intros http_get. unfold service_health, checked_health, health, _url.
    by rewrite SERVICE_URLS_from_config, lookup_fmap, Hk.
  - intros s. unfold service_status, status.
    by rewrite (bind_raise _ _ _ _ _ (get_unknown _ _ Hk)).
Qed.

Lemma unknown_service_health_vs_status_witness :
  (∀ (http_get : string → proxy_exn + unit),
     service_health http_get "llama" = inr (Unreachable (UnknownService "llama"))) ∧
  (∀ s, service_status "llama" s = (Raise (ValueError "llama"), s)).
Proof.
  apply (unknown_service_health_vs_status "llama").
  vm_compute. reflexivity.
Defined.

(** What the loop runs during an [await] keeps the state reachable, calls
    nothing on a process, creates no task and removes no record. *)
Lemma run_event_step ev s : s = run_event ev s ∨ step s (run_event ev s).
Proof.
  destruct ev as [t|q line|q|d]; simpl.
  - right. apply step_task.
  - destruct (decide (line = "")); [by left|right; by apply step_write].
  - right. apply step_exit.
  - right. apply step_tick.
Qed.

Lemma task_step_rest t s :
  trace (task_step t s) = trace s ∧
  length (tasks (task_step t s)) = length (tasks s) ∧
  ∀ j, is_Some (_services s !! j) → is_Some (_services (task_step t s) !! j).
Proof.
  unfold task_step.
  repeat case_match; simpl; rewrite ?length_alter; split_and!; try done;
    intros j Hj; by rewrite lookup_alter_is_Some.
Qed.

Lemma run_event_rest ev s :
  trace (run_event ev s) = trace s ∧
  length (tasks (run_event ev s)) = length (tasks s) ∧
  ∀ j, is_Some (_services s !! j) → is_Some (_services (run_event ev s) !! j).
Proof.
  destruct ev as [t|q line|q|d]; simpl.
  - apply task_step_rest.
  - by destruct (decide (line = "")).
  - done.
  - done.
Qed.

Lemma await_spec events : ∀ s,
  await events s = (Return tt, run (await events) s) ∧
  (reachable s → reachable (run (await events) s)) ∧
  trace (run (await events) s) = trace s ∧
  length (tasks (run (await events) s)) = length (tasks s) ∧
  ∀ j, is_Some (_services s !! j) → is_Some (_services (run (await events) s) !! j).
Proof.
  unfold await, run, modify. simpl.
  induction events as [|ev rest IH]; intros s; [done|].
  simpl. destruct (IH (run_event ev s)) as (_ & Hreach & Htr & Hlen & Hdom).
  destruct (run_event_rest ev s) as (Htr1 & Hlen1 & Hdom1).
  split; [done|]. split_and!.
  - intros Hs. apply Hreach.
    destruct (run_event_step ev s) as [<-|Hstep]; [done|].
    by eapply reachable_step.
  - by rewrite Htr.
  - by rewrite Hlen.
  - intros j Hj. by apply Hdom, Hdom1.
Qed.

(** X15. services_overview never fails on the side of the services: in any
    reachable state, whatever the health requests and gpu_info do (answer
    or raise) and whatever the event loop runs while they are awaited
    (reader tasks, children writing or exiting, time passing), it returns
    one entry per configured service, whisper then tts, and the GPU
    document or its error.  The entry of a service is made of the fields
    status returns for it at the moment the loop reaches it (for tts: after
    the health request of whisper has been awaited) plus its health report.
    The tool spawns, signals, waits for and kills no process and creates no
    task, and both services have a record when it returns. *)
Theorem services_overview_total {JSON GPU E} (http_get : string → proxy_exn + JSON)
    (during : string → list loop_event) (gpu_info : E + GPU)
    (during_gpu : list loop_event) (s : State) :
  reachable s →
  ∃ st_w st_t s1 s2 s' entry_w entry_t gpu,
    services_overview http_get during gpu_info during_gpu s
      = (Return ([("whisper", entry_w); ("tts", entry_t)], gpu), s') ∧
    status "whisper" s = (Return st_w, s1) ∧
    status "tts" (run (await (during "whisper")) s1) = (Return st_t, s2) ∧
    s' = run (await during_gpu) (run (await (during "tts")) s2) ∧
    entry_w = <["health" := HealthField (checked_health http_get "whisper")]> (Field <$> st_w) ∧
    entry_t = <["health" := HealthField (checked_health http_get "tts")]> (Field <$> st_t) ∧
    gpu = match gpu_info with inr g => GpuInfo g | inl e => GpuError e end ∧
    reachable s' ∧
    trace s' = trace s ∧ length (tasks s') = length (tasks s) ∧
    is_Some (_services s' !! "whisper") ∧ is_Some (_services s' !! "tts").
Proof.
  intros Hs.
  destruct (SERVICE_CONFIG !! "whisper") as [cw|] eqn:Hw; [|by vm_compute in Hw].
  destruct (SERVICE_CONFIG !! "tts") as [ct|] eqn:Ht; [|by vm_compute in Ht].
  pose proof (status_known _ _ _ Hs Hw) as Hst1.
  set (s1 := ensure "whisper" s) in *.
  assert (reachable s1) as Hs1
    by (eapply reachable_step; [exact Hs|by eapply (step_status "whisper")]).
  destruct (await_spec (during "whisper") s1) as (Haw1 & Hre1 & Htr1 & Hlen1 & Hdom1).
  set (s1' := run (await (during "whisper")) s1) in *.
  pose proof (status_known _ _ _ (Hre1 Hs1) Ht) as Hst2.
  set (s2 := ensure "tts" s1') in *.
  assert (reachable s2) as Hs2
    by (eapply reachable_step; [exact (Hre1 Hs1)|by eapply (step_status "tts")]).
  destruct (await_spec (during "tts") s2) as (Haw2 & Hre2 & Htr2 & Hlen2 & Hdom2).
  set (s2' := run (await (during "tts")) s2) in *.
  destruct (await_spec during_gpu s2') as (Haw3 & Hre3 & Htr3 & Hlen3 & Hdom3).
  destruct (ensure_rest "whisper" s) as (Het1 & _ & _ & _ & _ & Hetr1).
  destruct (ensure_rest "tts" s1') as (Het2 & _ & _ & _ & _ & Hetr2).
  fold s1 in Het1, Hetr1. fold s2 in Het2, Hetr2.
  do 8 eexists. split.
  { unfold services_overview, SERVICE_NAMES. simpl overview_loop.
    rewrite bind_eq.
    rewrite (bind_return _ _ _ _ _ Hst1).
    rewrite (bind_return _ _ _ _ _ Haw1).
    rewrite (bind_return _ _ _ _ _ Hst2).
    rewrite (bind_return _ _ _ _ _ Haw2).
    unfold mret at 1, M_ret at 1.
    rewrite (bind_return _ _ _ _ _ Haw3).
    reflexivity. }
  split; [exact Hst1|]. split; [exact Hst2|].
  split_and!; try done.
  - by apply Hre3, Hre2.
  - by rewrite Htr3, Htr2, Hetr2, Htr1, Hetr1.
  - by rewrite Hlen3, Hlen2, Het2, Hlen1, Het1.
  - apply Hdom3, Hdom2. subst s2. destruct (decide ("tts" = "whisper")); [done|].
    rewrite ensure_lookup_ne by done. apply Hdom1. subst s1.
    rewrite ensure_lookup. done.
  - apply Hdom3, Hdom2. subst s2. rewrite ensure_lookup. done.
Qed.

(** While the tool awaits whisper's health reply the reader stores a line
    whisper has printed, and while it awaits gpu_info whisper exits. *)
Lemma services_overview_total_witness :
  ∃ st_w st_t s1 s2 s' entry_w entry_t gpu,
    services_overview (λ _, inl (RequestFailed "connection refused"))
      (λ _, [EvTask 0; EvWrite 4000 "ready"; EvTask 0]) (inl tt) [EvExit 4000] whisper_up
      = (Return ([("whisper", entry_w); ("tts", entry_t)], gpu), s') ∧
    status "whisper" whisper_up = (Return st_w, s1) ∧
    status "tts" (run (await [EvTask 0; EvWrite 4000 "ready"; EvTask 0]) s1)
      = (Return st_t, s2) ∧
    s' = run (await [EvExit 4000])
           (run (await [EvTask 0; EvWrite 4000 "ready"; EvTask 0]) s2) ∧
    entry_w = <["health" := HealthField
                  (checked_health (λ _, inl (RequestFailed "connection refused") : proxy_exn + unit)
                     "whisper")]> (Field <$> st_w) ∧
    entry_t = <["health" := HealthField
                  (checked_health (λ _, inl (RequestFailed "connection refused") : proxy_exn + unit)
                     "tts")]> (Field <$> st_t) ∧
    gpu = (GpuError tt : gpu_report unit unit) ∧
    reachable s' ∧
    trace s' = trace whisper_up ∧ length (tasks s') = length (tasks whisper_up) ∧
    is_Some (_services s' !! "whisper") ∧ is_Some (_services s' !! "tts").
Proof.
  exact (services_overview_total (λ _, inl (RequestFailed "connection refused"))
           (λ _, [EvTask 0; EvWrite 4000 "ready"; EvTask 0]) (inl tt) [EvExit 4000]
           whisper_up whisper_up_reachable).
Defined.

(** In that run the buffer of whisper changes under the tool: it holds the
    line twice, once for each health request awaited. *)
Example services_overview_interleaved :
  logs <$> (_services
              (run (services_overview
                      (λ _, inl (RequestFailed "connection refused") : proxy_exn + unit)
                      (λ _, [EvTask 0; EvWrite 4000 "ready"; EvTask 0])
                      (inl tt : unit + unit) [EvExit 4000]) whisper_up) !! "whisper")
  = Some ["ready"; "ready"].
Proof. vm_compute. reflexivity. Qed.

(** ** The listing of GPU processes *)

Example splitlines_ex :
  splitlines ("a" +:+ nl +:+ nl +:+ "b" +:+ String (Ascii.ascii_of_nat 13) nl +:+ "c" +:+ nl)
  = ["a"; ""; "b"; "c"].
Proof. vm_compute. reflexivity. Qed.

Example splitlines_ex2 : splitlines "" = [] ∧ splitlines nl = [""] ∧ splitlines "ab" = ["ab"].
Proof. vm_compute. done. Qed.

Example split_ex : split_comma "a,b,,c" = ["a"; "b"; ""; "c"] ∧ split_comma "" = [""].
Proof. vm_compute. done. Qed.

Example int_ex :
  py_int " 42 " = Some 42 ∧ py_int "-7" = Some (-7) ∧ py_int "+1_000" = Some 1000 ∧
  py_int "007" = Some 7 ∧ py_int "" = None ∧ py_int "1__0" = None ∧ py_int "_1" = None ∧
  py_int "1_" = None ∧ py_int "[N/A]" = None ∧ py_int "- 5" = None ∧ py_int "12 MiB" = None.
Proof. vm_compute. done. Qed.

Example rows_ex :
  gpu_process_list
    (Some {| smi_returncode := 0;
             smi_stdout := "1234, python.exe, GPU-abc, 2048" +:+ nl +:+ nl
                           +:+ "88, C:\uvicorn.exe, GPU-abc, 512" +:+ nl;
             smi_stderr := "" |})
  = inr [ <["pid" := PInt 1234]> (<["process_name" := PStr "python.exe"]>
          (<["gpu_uuid" := PStr "GPU-abc"]> (<["vram_used_mb" := PInt 2048]> ∅)));
          <["pid" := PInt 88]> (<["process_name" := PStr "C:\uvicorn.exe"]>
          (<["gpu_uuid" := PStr "GPU-abc"]> (<["vram_used_mb" := PInt 512]> ∅))) ].
Proof. vm_compute. reflexivity. Qed.

Lemma space_not_comma c : is_space c = true → bool_decide (code c = 44%N) = false.
Proof.
  unfold is_space. intros Hs%bool_decide_eq_true. apply bool_decide_eq_false.
  intros Hc. rewrite Hc in Hs. revert Hs. rewrite !elem_of_cons, elem_of_nil.
  intros H. repeat (destruct H as [H|H]; [discriminate|]). done.
Qed.

Lemma rstrip_nonempty c rest : is_space c = false → rstrip (String c rest) ≠ "".
Proof. intros Hc. simpl. destruct (rstrip rest); by rewrite ?Hc. Qed.

(** A line of white space only has no comma: it is a single field. *)
Lemma blank_single_field s : strip s = "" → split_comma s = [s].
Proof.
  unfold strip. induction s as [|c rest IH]; [done|].
  simpl lstrip. destruct (is_space c) eqn:Hc.
  - intros Hblank. simpl. rewrite (space_not_comma c Hc), (IH Hblank). done.
  - intros Hblank. by apply rstrip_nonempty in Hblank.
Qed.

(** The test [if not line.strip()] skips nothing that the test on the
    number of fields would not skip. *)
Lemma process_row_None line : process_row line = None ↔ listed line = false.
Proof.
  unfold process_row, listed. case_bool_decide as Hblank.
  - unfold fields. rewrite (blank_single_field line Hblank). simpl. done.
  - rewrite Nat.leb_antisym. destruct (length (fields line) <? 4)%nat; simpl; [done|].
    split; [done|]. discriminate.
Qed.

Lemma process_row_Some line :
  listed line = true →
  (∃ d, process_row line = Some (inr d) ∧ row_of line d) ∨
  (∃ e, process_row line = Some (inl e) ∧ malformed line).
Proof.
  intros Hl. pose proof Hl as Hl'. unfold process_row, listed in *.
  case_bool_decide as Hblank.
  { unfold fields in Hl. by rewrite (blank_single_field line Hblank) in Hl. }
  rewrite Nat.leb_antisym in Hl. apply negb_true_iff in Hl. rewrite Hl.
  destruct (py_int (part (fields line) 0)) as [p|] eqn:Hp.
  - destruct (py_int (part (fields line) 3)) as [m|] eqn:Hm.
    + left. eexists. split; [done|]. by exists p, m.
    + right. eexists. split; [done|]. split; [done|]. by right.
  - right. eexists. split; [done|]. split; [done|]. by left.
Qed.

Lemma process_rows_inr lines : ∀ acc procs,
  process_rows lines acc = inr procs →
  ∃ rows, procs = acc ++ rows ∧ Forall2 row_of (filter (λ l, listed l = true) lines) rows.
Proof.
  induction lines as [|line rest IH]; intros acc procs; simpl.
  - intros [= <-]. exists []. split; [by rewrite app_nil_r|constructor].
  - destruct (listed line) eqn:Hl.
    + rewrite filter_cons_True by done.
      destruct (process_row_Some line Hl) as [(d & -> & Hrow)|(e & -> & _)]; [|done].
      intros Hrest. destruct (IH _ _ Hrest) as (rows & -> & Hrows).
      exists (d :: rows). split; [by rewrite <- app_assoc|by constructor].
    + rewrite filter_cons_False by (by rewrite Hl).
      rewrite (proj2 (process_row_None line) Hl). apply IH.
Qed.

Lemma process_row_error line e :
  process_row line = Some (inl e) → ∃ literal, e = IntValueError literal.
Proof. unfold process_row. repeat case_match; intros [= <-]; by eexists. Qed.

Lemma process_rows_malformed lines : ∀ acc line,
  line ∈ lines → malformed line →
  ∃ literal, process_rows lines acc = inl (IntValueError literal).
Proof.
  induction lines as [|l rest IH]; intros acc line Hin Hbad; [by apply elem_of_nil in Hin|].
  simpl. destruct (process_row l) as [[e|d]|] eqn:Hrow.
  - destruct (process_row_error l e Hrow) as (literal & ->). by eexists.
  - apply elem_of_cons in Hin as [->|Hin]; [|by eapply IH].
    destruct Hbad as [Hl Hbad].
    destruct (process_row_Some l Hl) as [(d' & Hd' & (p & m & Hp & Hm & _))|(e & He & _)];
      [|congruence]. destruct Hbad; congruence.
  - apply elem_of_cons in Hin as [->|Hin]; [|by eapply IH].
    destruct Hbad as [Hl _]. apply process_row_None in Hrow. congruence.
Qed.

(** X16. When gpu_process_list returns, its list has exactly one entry for
    each output line with at least four comma-separated fields, in the
    order of the output, and no entry for any other line (blank lines
    included); the entry holds the first and fourth field as integers and
    the second and third, stripped, as process name and GPU uuid. *)
Theorem gpu_process_list_rows (run : option SmiRun) (procs : list (gmap string pyval)) :
  gpu_process_list run = inr procs →
  ∃ r,
    run = Some r ∧ smi_returncode r = 0 ∧
    Forall2 row_of
      (filter (λ l, listed l = true) (splitlines (strip (smi_stdout r)))) procs.
Proof.
  unfold gpu_process_list, _run_smi. destruct run as [r|]; [|done].
  case_bool_decide as Hrc; [done|]. intros Hrows.
  destruct (process_rows_inr _ _ _ Hrows) as (rows & -> & Hall).
  exists r. split; [done|]. split; [|done].
  destruct (decide (smi_returncode r = 0)); [done|]. by destruct Hrc.
Qed.

Lemma gpu_process_list_rows_witness :
  ∃ r,
    Some smi_two_rows = Some r ∧ smi_returncode r = 0 ∧
    Forall2 row_of
      (filter (λ l, listed l = true) (splitlines (strip (smi_stdout r))))
      [ <["pid" := PInt 1234]> (<["process_name" := PStr "python.exe"]>
        (<["gpu_uuid" := PStr "GPU-abc"]> (<["vram_used_mb" := PInt 2048]> ∅)));
        <["pid" := PInt 88]> (<["process_name" := PStr "uvicorn.exe"]>
        (<["gpu_uuid" := PStr "GPU-abc"]> (<["vram_used_mb" := PInt 512]> ∅))) ].
Proof.
  apply (gpu_process_list_rows (Some smi_two_rows)).
  vm_compute. reflexivity.
Defined.

(** X17. One malformed row spoils the listing: if nvidia-smi succeeds and
    some output line has at least four fields but a first or fourth field
    that is not an integer literal (such as [N/A]), gpu_process_list raises
    ValueError and returns no row at all. *)
Theorem gpu_process_list_malformed (r : SmiRun) (line : string) :
  smi_returncode r = 0 →
  line ∈ splitlines (strip (smi_stdout r)) →
  malformed line →
  ∃ literal, gpu_process_list (Some r) = inl (IntValueError literal).
Proof.
  intros Hrc Hin Hbad. unfold gpu_process_list, _run_smi.
  rewrite bool_decide_eq_false_2 by (intros Hne; by apply Hne).
  exact (process_rows_malformed _ [] line Hin Hbad).
Qed.

Lemma gpu_process_list_malformed_witness :
  ∃ literal, gpu_process_list (Some smi_no_permission) = inl (IntValueError literal).
Proof.
  apply (gpu_process_list_malformed smi_no_permission "88, uvicorn.exe, GPU-abc, [N/A]").
  - reflexivity.
  - vm_compute. apply list_elem_of_further, list_elem_of_here.
  - split; [vm_compute; reflexivity|]. right. vm_compute. reflexivity.
Defined.
